(** * redeem_cli.py: a shallow embedding and its checked properties

    The Python module [redeem_cli.py] is a periodic job runner around an
    external redemption script.  This development embeds

    - [load_env_file] (the [.env] loader) as a fold over the file's lines
      that updates [os.environ], a finite map from names to values;
    - [RedemptionCLI] as a record of its fields together with a small
      state-and-exception monad in which [_run_subprocess_sync],
      [_run_redemption], [_run_loop], [start] and [stop] are written;
    - [main] as a function from the process's surroundings (file system,
      environment, parsed flags, terminal) to an exit status.

    Python strings are Rocq strings; a character is read as a code point
    below 256.  Time is a number of seconds ([Z]).  Everything the program
    cannot decide by itself (what the child process does, when somebody
    calls [stop]) is an explicit argument. *)

From Stdlib Require Import ZArith Ascii String List Bool Lia DecimalString.
From stdpp Require Import base option gmap strings list.

Local Open Scope string_scope.
Local Open Scope Z_scope.

(** ** Python's string operations used by the loader *)

Module PyStr.

(** [str.isspace] on one character, for code points below 256:
    TAB..CR, FS..US, SPACE, NEL and NBSP. *)
Definition isspace (c : ascii) : bool :=
  let n := nat_of_ascii c in
  ((9 <=? n)%nat && (n <=? 13)%nat)
  || ((28 <=? n)%nat && (n <=? 32)%nat)
  || (n =? 133)%nat || (n =? 160)%nat.

Fixpoint lstrip (s : string) : string :=
  match s with
  | EmptyString => EmptyString
  | String c s' => if isspace c then lstrip s' else s
  end.

Fixpoint rstrip (s : string) : string :=
  match s with
  | EmptyString => EmptyString
  | String c s' =>
      match rstrip s' with
      | EmptyString => if isspace c then EmptyString else String c EmptyString
      | r => String c r
      end
  end.

(** [s.strip()] *)
Definition strip (s : string) : string := rstrip (lstrip s).

(** [s.startswith(c)] for a one-character [c] *)
Definition startswith (s : string) (c : ascii) : bool :=
  match s with
  | String c' _ => if ascii_dec c' c then true else false
  | EmptyString => false
  end.

(** [s.endswith(c)] for a one-character [c] *)
Fixpoint endswith (s : string) (c : ascii) : bool :=
  match s with
  | EmptyString => false
  | String c' EmptyString => if ascii_dec c' c then true else false
  | String _ s' => endswith s' c
  end.

(** [s[:-1]] *)
Fixpoint drop_last (s : string) : string :=
  match s with
  | EmptyString => EmptyString
  | String _ EmptyString => EmptyString
  | String c s' => String c (drop_last s')
  end.

(** [s[1:-1]] *)
Definition slice_1_m1 (s : string) : string :=
  match s with
  | EmptyString => EmptyString
  | String _ s' => drop_last s'
  end.

(** [s.split(c, 1)] when [c in s]: the text before the first [c] and the
    text after it; [None] when [c] does not occur. *)
Fixpoint split_once (c : ascii) (s : string) : option (string * string) :=
  match s with
  | EmptyString => None
  | String c' s' =>
      if ascii_dec c' c then Some (EmptyString, s')
      else match split_once c s' with
           | Some (k, v) => Some (String c' k, v)
           | None => None
           end
  end.

(** The lines a text file yields when iterated: pieces between line
    feeds.  (The line feed itself is whitespace and is removed by the
    [strip] that every consumer here applies first.) *)
Fixpoint lines (s : string) : list string :=
  match s with
  | EmptyString => [EmptyString]
  | String c s' =>
      if ascii_dec c "010"%char then EmptyString :: lines s'
      else match lines s' with
           | l :: ls => String c l :: ls
           | [] => [String c EmptyString]
           end
  end.

(** Truth value of a string: non-empty. *)
Definition truthy (s : string) : bool :=
  match s with EmptyString => false | _ => true end.

End PyStr.

(** ** [load_env_file] *)

(** The double quote (code 34) and the single quote (code 39). *)
Definition dquote : ascii := Eval cbv in ascii_of_nat 34.
Definition squote : ascii := Eval cbv in ascii_of_nat 39.

(** Lines 35-38: one layer of surrounding quotes is removed. *)
Definition unquote (value : string) : string :=
  if PyStr.startswith value dquote && PyStr.endswith value dquote
  then PyStr.slice_1_m1 value
  else if PyStr.startswith value squote && PyStr.endswith value squote
  then PyStr.slice_1_m1 value
  else value.

(** The body of the [for line in f] loop (lines 25-41) as a transformer
    of [os.environ]. *)
Definition load_env_line (environ : gmap string string) (line : string)
  : gmap string string :=
  let line := PyStr.strip line in
  if negb (PyStr.truthy line) || PyStr.startswith line "#"%char then environ
  else
    match PyStr.split_once "="%char line with
    | None => environ
    | Some (key, value) =>
        let key := PyStr.strip key in
        let value := unquote (PyStr.strip value) in
        if PyStr.truthy key && PyStr.truthy value
           && negb (bool_decide (is_Some (environ !! key)))
        then <[key := value]> environ
        else environ
    end.

(** [load_env_file]: [env_file] is the text of [.env] as text mode
    delivers it (line ends already translated to line feeds), or [None]
    when the file does not exist. *)
Definition load_env_file (env_file : option string)
    (environ : gmap string string) : gmap string string :=
  match env_file with
  | None => environ
  | Some text => fold_left load_env_line (PyStr.lines text) environ
  end.

(** ** Exceptions, outcomes and the state the coroutines run in *)

(** The exceptions that occur in the module.  [AsyncTimeoutError] is
    [asyncio.TimeoutError]; [TimeoutExpired] is [subprocess.TimeoutExpired]. *)
Inductive exn : Type :=
| TimeoutExpired
| AsyncTimeoutError
| CancelledError
| KeyboardInterrupt
| EOFError
| SystemExit (code : Z)
| FileNotFoundError (msg : string)
| OSError (msg : string)
| RuntimeError (msg : string).

(** [isinstance(e, Exception)].  [asyncio.CancelledError],
    [KeyboardInterrupt] and [SystemExit] derive from [BaseException] only
    ([asyncio.to_thread] dates the module to Python 3.9 or later). *)
Definition is_Exception (e : exn) : bool :=
  match e with
  | CancelledError | KeyboardInterrupt | SystemExit _ => false
  | _ => true
  end.

(** [str(e)] *)
Definition str_exn (e : exn) : string :=
  match e with
  | TimeoutExpired => "Command timed out after 115 seconds"
  | AsyncTimeoutError | CancelledError | KeyboardInterrupt | EOFError => ""
  | SystemExit c => NilEmpty.string_of_int (Z.to_int c)
  | FileNotFoundError m | OSError m | RuntimeError m => m
  end.

(** What running a piece of code gives: a value, an exception, or no
    answer at all ([Pending]: the code is still running where the recorded
    behaviour of its surroundings ends, or it blocks for ever). *)
Inductive outcome (A : Type) : Type :=
| Ret (a : A)
| Raise (e : exn)
| Pending.
Arguments Ret {A} a.
Arguments Raise {A} e.
Arguments Pending {A}.

(** The handle stored in [self._task]. *)
Inductive task : Type :=
| TaskRunning
| TaskDone (r : outcome unit).

(** What the program does that can be seen from outside, in order. *)
Inductive event : Type :=
| Print (text : string)
| Spawn (at_time : Z) (args : list string) (env : gmap string string)
        (timeout : Z) (shell : bool)
| Sleep (at_time : Z) (seconds : Z)
| Getpass (prompt : string).

(** The fields of [RedemptionCLI] ([__init__]), then the process-wide
    state: the wall clock in seconds, [os.environ], [sys.platform ==
    "win32"], [SCRIPT_DIR] and the events so far (oldest first). *)
Record state : Type := mkState {
  interval_minutes : option Z;
  check_only : bool;
  password : option string;
  _stop : bool;
  _task : option task;
  _next_run_at : option Z;
  _last_run_at : option Z;
  now : Z;
  environ : gmap string string;
  win32 : bool;
  SCRIPT_DIR : string;
  trace : list event
}.

Definition set_stop (b : bool) (s : state) : state :=
  mkState (interval_minutes s) (check_only s) (password s) b (_task s)
          (_next_run_at s) (_last_run_at s) (now s) (environ s) (win32 s)
          (SCRIPT_DIR s) (trace s).
Definition set_task (t : option task) (s : state) : state :=
  mkState (interval_minutes s) (check_only s) (password s) (_stop s) t
          (_next_run_at s) (_last_run_at s) (now s) (environ s) (win32 s)
          (SCRIPT_DIR s) (trace s).
Definition set_next_run_at (t : option Z) (s : state) : state :=
  mkState (interval_minutes s) (check_only s) (password s) (_stop s) (_task s)
          t (_last_run_at s) (now s) (environ s) (win32 s)
          (SCRIPT_DIR s) (trace s).
Definition set_last_run_at (t : option Z) (s : state) : state :=
  mkState (interval_minutes s) (check_only s) (password s) (_stop s) (_task s)
          (_next_run_at s) t (now s) (environ s) (win32 s)
          (SCRIPT_DIR s) (trace s).
Definition set_now (t : Z) (s : state) : state :=
  mkState (interval_minutes s) (check_only s) (password s) (_stop s) (_task s)
          (_next_run_at s) (_last_run_at s) t (environ s) (win32 s)
          (SCRIPT_DIR s) (trace s).
Definition add_event (e : event) (s : state) : state :=
  mkState (interval_minutes s) (check_only s) (password s) (_stop s) (_task s)
          (_next_run_at s) (_last_run_at s) (now s) (environ s) (win32 s)
          (SCRIPT_DIR s) (trace s ++ [e]).

(** *** The monad: state passing with exceptions *)

Definition M (A : Type) : Type := state -> outcome A * state.

Definition ret {A} (a : A) : M A := fun s => (Ret a, s).
Definition raise {A} (e : exn) : M A := fun s => (Raise e, s).
Definition bind {A B} (m : M A) (k : A -> M B) : M B :=
  fun s =>
    match m s with
    | (Ret a, s') => k a s'
    | (Raise e, s') => (Raise e, s')
    | (Pending, s') => (Pending, s')
    end.
Definition get {A} (f : state -> A) : M A := fun s => (Ret (f s), s).
Definition modify (f : state -> state) : M unit := fun s => (Ret tt, f s).

(** [try: m  except <handler>]: the handler sees the exception and either
    handles it or lets it through. *)
Definition try_except {A} (m : M A) (handler : exn -> M A) : M A :=
  fun s =>
    match m s with
    | (Raise e, s') => handler e s'
    | r => r
    end.

Declare Scope py_scope.
Delimit Scope py_scope with py.
Notation "x <- m ;; k" := (bind m (fun x => k))
  (at level 100, m at next level, right associativity) : py_scope.
Notation "m ;;; k" := (bind m (fun _ => k))
  (at level 100, right associativity) : py_scope.
Local Open Scope py_scope.

Definition print (text : string) : M unit := modify (add_event (Print text)).
Definition when (b : bool) (m : M unit) : M unit := if b then m else ret tt.

(** ** What the surroundings do while the program waits *)

(** What may happen while a coroutine is suspended at an [await], [after]
    seconds into the wait: nothing; a concurrent caller sets the stop
    event; a concurrent caller runs [stop()] (lines 182-184: the event is
    set and, when [self._task] is set, the task is cancelled); or the event
    loop throws an exception into the coroutine. *)
Inductive interrupt : Type :=
| Undisturbed
| StopSet (after : N)
| StopCalled (after : N)
| Thrown (after : N) (e : exn).

(** The external script as a process: its output, its exit status and how
    long it runs ([None]: it never exits by itself). *)
Record child : Type := mkChild {
  child_stdout : string;
  child_stderr : string;
  child_returncode : Z;
  child_seconds : option N
}.

(** What [subprocess.run] meets: the process cannot be started, or it
    starts; [reap_seconds] is how long killing and reaping the child takes
    once the timeout has expired ([None]: the kill never completes). *)
Inductive launch : Type :=
| LaunchError (e : exn)
| Launched (c : child) (reap_seconds : option N).

(** One call of [_run_redemption] seen from outside. *)
Record invocation : Type := mkInvocation {
  script_present : bool;
  launching : launch;
  disturbance : interrupt
}.

(** One pass through the body of the [while] loop of [_run_loop]: the
    interval wait, the invocation after it, and the wait of the fault
    handler (line 164) should it be reached. *)
Record cycle : Type := mkCycle {
  wait : interrupt;
  run : invocation;
  cooldown : interrupt
}.

Definition advance (d : Z) (s : state) : state := set_now (now s + d) s.

(** When, whether the stop event gets set, and what is thrown. *)
Definition hit (i : interrupt) (has_task : bool) : option (N * bool * option exn) :=
  match i with
  | Undisturbed => None
  | StopSet a => Some (a, true, None)
  | StopCalled a => Some (a, true, if has_task then Some CancelledError else None)
  | Thrown a e => Some (a, false, Some e)
  end.

Definition finish {A} (d : option Z) (done : outcome A) : M A :=
  fun s =>
    match d with
    | Some d => (done, advance d s)
    | None => (Pending, s)
    end.

Definition strikes_before (a : N) (d : option Z) : bool :=
  match d with
  | Some d => Z.of_N a <? d
  | None => true
  end.

(** [await] of something that is done after [d] seconds with [done],
    under the interrupt [i]. *)
Definition await {A} (d : option Z) (done : outcome A) (i : interrupt) : M A :=
  fun s =>
    match hit i (bool_decide (is_Some (_task s))) with
    | Some (a, sets, thrown) =>
        if strikes_before a d then
          let s1 := if sets : bool then set_stop true s else s in
          match thrown with
          | Some e => (Raise e, advance (Z.of_N a) s1)
          | None => finish d done s1
          end
        else finish d done s
    | None => finish d done s
    end.

(** [await asyncio.sleep(seconds)] *)
Definition sleep (seconds : Z) (i : interrupt) : M unit :=
  (t <- get now ;;
   modify (add_event (Sleep t seconds)) ;;;
   await (Some (Z.max 0 seconds)) (Ret tt) i)%py.

(** [await asyncio.wait_for(asyncio.to_thread(thread), timeout)]: the
    worker thread runs by itself; the caller gets its result if that
    arrives before the timeout, [asyncio.TimeoutError] otherwise. *)
Definition wait_for {A} (thread : M A) (timeout : Z) (i : interrupt) : M A :=
  fun s =>
    let '(r, s') := thread s in
    let s0 := set_now (now s) s' in
    let elapsed := now s' - now s in
    match r with
    | Pending => await (Some timeout) (Raise AsyncTimeoutError) i s0
    | _ =>
        if elapsed <? timeout then await (Some elapsed) r i s0
        else await (Some timeout) (Raise AsyncTimeoutError) i s0
    end.

(** ** [subprocess.run] *)

Record CompletedProcess : Type := mkCompleted {
  stdout : string;
  stderr : string;
  returncode : Z
}.

Definition subprocess_run (args : list string) (env : gmap string string)
    (timeout : Z) (shell : bool) (l : launch) : M CompletedProcess :=
  (t <- get now ;;
   modify (add_event (Spawn t args env timeout shell)) ;;;
   match l with
   | LaunchError e => raise e
   | Launched c reap =>
       let killed : M CompletedProcess :=
         match reap with
         | Some k => modify (advance (timeout + Z.of_N k)) ;;; raise TimeoutExpired
         | None => fun s => (Pending, s)
         end in
       match child_seconds c with
       | Some d =>
           if Z.of_N d <=? timeout
           then modify (advance (Z.of_N d)) ;;;
                ret (mkCompleted (child_stdout c) (child_stderr c) (child_returncode c))
           else killed
       | None => killed
       end
   end)%py.

(** ** [RedemptionCLI] *)

(** The dictionary [_run_subprocess_sync] returns. *)
Record proc_result : Type := mkProcResult {
  output : string;
  result_returncode : Z
}.

(** The dictionary [_run_redemption] returns: ["success"], and either
    ["exit_code"] or ["error"]. *)
Record run_result : Type := mkRunResult {
  success : bool;
  exit_code : option Z;
  error : option string
}.

(** Lines 68-70: the child's environment. *)
Definition child_env (environ : gmap string string) (password : option string)
  : gmap string string :=
  match password with
  | Some p => if PyStr.truthy p then <["REDEEM_PASSWORD" := p]> environ else environ
  | None => environ
  end.

Definition _run_subprocess_sync (args : list string) (l : launch) : M proc_result :=
  try_except
    (os_environ <- get environ ;;
     pw <- get password ;;
     let env := child_env os_environ pw in
     use_shell <- get win32 ;;
     result <- subprocess_run args env 115 use_shell l ;;
     ret (mkProcResult (stdout result +:+ stderr result) (returncode result)))%py
    (fun e =>
       match e with
       | TimeoutExpired => ret (mkProcResult "Script timed out" (-1))
       | _ => if is_Exception e
              then ret (mkProcResult (str_exn e) (-1))
              else raise e
       end).

Definition REDEMPTION_SCRIPT_PATH (s : state) : string :=
  SCRIPT_DIR s +:+ "/src/redeem.ts".

Definition _run_redemption (inv : invocation) : M run_result :=
  (script <- get REDEMPTION_SCRIPT_PATH ;;
   if negb (script_present inv) then
     print ("[ERROR] Redemption script not found at " +:+ script) ;;;
     ret (mkRunResult false None (Some "Script not found"))
   else
     co <- get check_only ;;
     let args := (["npx"; "tsx"; "src/redeem.ts"]
                  ++ (if co : bool then ["--check"] else []))%list in
     try_except
       (result_data <- wait_for (_run_subprocess_sync args (launching inv)) 120
                                (disturbance inv) ;;
        let output := output result_data in
        let returncode := result_returncode result_data in
        when (PyStr.truthy (PyStr.strip output)) (print (PyStr.strip output)) ;;;
        ret (mkRunResult (returncode =? 0) (Some returncode) None))
       (fun e =>
          match e with
          | AsyncTimeoutError =>
              print "[ERROR] Redemption script timed out" ;;;
              ret (mkRunResult false None (Some "Timeout"))
          | _ =>
              if is_Exception e then
                print ("[ERROR] Failed to run redemption script: " +:+ str_exn e) ;;;
                ret (mkRunResult false None (Some (str_exn e)))
              else raise e
          end))%py.

Definition LF : string := String "010"%char EmptyString.

(** [c * n] for a one-character string *)
Fixpoint str_mul (c : ascii) (n : nat) : string :=
  match n with
  | O => EmptyString
  | S n' => String c (str_mul c n')
  end.

(** [str(n)] for an [int] *)
Definition str_int (n : Z) : string := NilEmpty.string_of_int (Z.to_int n).

(** Lines 149-158: the [try] block of the loop body. *)
Definition loop_body (minutes interval_seconds : Z) (c : cycle) : M unit :=
  (t <- get now ;;
   modify (set_next_run_at (Some (t + interval_seconds))) ;;;
   print (LF +:+ "Next run scheduled in " +:+ str_int minutes +:+ " minute(s)...") ;;;
   print (str_mul "-"%char 55) ;;;
   sleep interval_seconds (wait c) ;;;
   stopped <- get _stop ;;
   when (negb stopped)
     (t' <- get now ;;
      modify (set_last_run_at (Some t')) ;;;
      _ <- _run_redemption (run c) ;;
      ret tt))%py.

(** Lines 147-164: the [while not self._stop.is_set()] loop.  Each pass
    uses up one recorded [cycle]; when none is left and the loop would go
    on, the answer is [Pending]. *)
Fixpoint loop (minutes interval_seconds : Z) (cycles : list cycle) : M unit :=
  fun s =>
    if _stop s then (Ret tt, s)
    else
      match cycles with
      | [] => (Pending, s)
      | c :: rest =>
          match loop_body minutes interval_seconds c s with
          | (Ret _, s') => loop minutes interval_seconds rest s'
          | (Raise CancelledError, s') => (Ret tt, s')
          | (Raise e, s') =>
              if is_Exception e then
                match (print ("[ERROR] Error in redemption loop: " +:+ str_exn e) ;;;
                       sleep 60 (cooldown c))%py s' with
                | (Ret _, s'') => loop minutes interval_seconds rest s''
                | r => r
                end
              else (Raise e, s')
          | (Pending, s') => (Pending, s')
          end
      end.

Definition _run_loop (first : invocation) (cycles : list cycle) : M unit :=
  (t <- get now ;;
   modify (set_last_run_at (Some t)) ;;;
   _ <- _run_redemption first ;;
   im <- get interval_minutes ;;
   match im with
   | None => ret tt
   | Some minutes => loop minutes (minutes * 60) cycles
   end)%py.

(** [self._task = asyncio.create_task(coro)], then [await self._task]
    inside [try ... except asyncio.CancelledError: pass] (lines 174-178). *)
Definition run_as_task (coro : M unit) : M unit :=
  fun s =>
    match coro (set_task (Some TaskRunning) s) with
    | (Pending, s') => (Pending, s')
    | (r, s') =>
        let s'' := set_task (Some (TaskDone r)) s' in
        match r with
        | Raise CancelledError => (Ret tt, s'')
        | _ => (r, s'')
        end
    end.

Definition start (first : invocation) (cycles : list cycle) : M unit :=
  (im <- get interval_minutes ;;
   match im with
   | None => _ <- _run_redemption first ;; ret tt
   | Some _ =>
       modify (set_stop false) ;;;
       run_as_task (_run_loop first cycles)
   end)%py.

(** [stop].  Cancelling a finished task does nothing and awaiting it
    gives its result again.  For a task that is still running the answer
    is [Pending]: how the task reacts to the cancellation is part of the
    run of [start], where it is the interrupt [StopCalled]. *)
Definition stop : M unit :=
  (modify (set_stop true) ;;;
   t <- get _task ;;
   match t with
   | None => ret tt
   | Some TaskRunning => fun s => (Pending, s)
   | Some (TaskDone r) =>
       try_except (fun s => (r, s))
         (fun e => match e with CancelledError => ret tt | _ => raise e end)
   end ;;;
   print (LF +:+ "Redemption CLI stopped."))%py.

(** [RedemptionCLI(interval_minutes, check_only, password)] *)
Definition RedemptionCLI (interval : option Z) (check : bool)
    (pw : option string) (s : state) : state :=
  mkState interval check pw false None None None
          (now s) (environ s) (win32 s) (SCRIPT_DIR s) (trace s).

(** ** The entry point *)

Definition set_environ (e : gmap string string) (s : state) : state :=
  mkState (interval_minutes s) (check_only s) (password s) (_stop s) (_task s)
          (_next_run_at s) (_last_run_at s) (now s) e (win32 s)
          (SCRIPT_DIR s) (trace s).

Definition sys_exit {A} (code : Z) : M A := raise (SystemExit code).

Definition check_key_setup (key_file_exists : bool) : M unit :=
  (if negb key_file_exists then
     print "[ERROR] Encrypted keys not configured." ;;;
     print (LF +:+ "Please run key setup first:") ;;;
     print "  npx tsx src/redeem.ts --setup" ;;;
     print (LF +:+ "This will securely store your wallet credentials.") ;;;
     sys_exit 1
   else ret tt)%py.

(** [prompt_password]; [typed] is what [getpass.getpass] does. *)
Definition prompt_password (typed : outcome string) : M string :=
  (modify (add_event (Getpass "Enter encryption password: ")) ;;;
   try_except (fun s => (typed, s))
     (fun e =>
        match e with
        | KeyboardInterrupt | EOFError =>
            print (LF +:+ "Cancelled.") ;;; sys_exit 0
        | _ => raise e
        end))%py.

(** Everything [main] takes from outside: the text of [.env], the parsed
    flags, the preflight facts, the terminal, and the behaviour of the
    invocations. *)
Record surroundings : Type := mkSurroundings {
  env_file : option string;
  arg_interval : option Z;
  arg_once : bool;
  arg_check : bool;
  key_file_exists : bool;
  node_version : outcome Z;
  script_exists : bool;
  typed : outcome string;
  first_run : invocation;
  later_cycles : list cycle
}.

(** Lines 278-291: is [node] there? *)
Definition check_node (probe : outcome Z) : M unit :=
  try_except
    (t <- get now ;;
     env <- get environ ;;
     shell <- get win32 ;;
     modify (add_event (Spawn t ["node"; "--version"] env 5 shell)) ;;;
     rc <- (fun s => (probe, s)) ;;
     if negb (rc =? 0) then raise (FileNotFoundError "") else ret tt)%py
    (fun e =>
       match e with
       | FileNotFoundError _ | TimeoutExpired | OSError _ =>
           (print "[ERROR] Node.js is not installed or not in PATH" ;;;
            print "Please install Node.js from https://nodejs.org/" ;;;
            sys_exit 1)%py
       | _ => raise e
       end).

Definition truthy_opt (o : option string) : bool :=
  match o with
  | Some v => PyStr.truthy v
  | None => false
  end.

(** Lines 216-309 of [main]: everything up to and including the
    construction of the [RedemptionCLI] object. *)
Definition configure (w : surroundings) : M unit :=
  (modify (fun s => set_environ (load_env_file (env_file w) (environ s)) s) ;;;
   interval <-
     match arg_interval w with
     | Some n =>
         if n <? 1
         then print "[ERROR] Interval must be at least 1 minute" ;;; sys_exit 1
         else ret (Some n)
     | None => ret None
     end ;;
   check_key_setup (key_file_exists w) ;;;
   check_node (node_version w) ;;;
   script <- get REDEMPTION_SCRIPT_PATH ;;
   (if negb (script_exists w)
    then print ("[ERROR] Redemption script not found at " +:+ script) ;;; sys_exit 1
    else ret tt) ;;;
   env <- get environ ;;
   let from_env := env !! "REDEEM_PASSWORD" in
   pw <- (if negb (truthy_opt from_env)
          then p <- prompt_password (typed w) ;; ret (Some p)
          else ret from_env) ;;
   modify (RedemptionCLI interval (arg_check w) pw))%py.

(** Lines 311-315: [asyncio.run(cli.start())] and the handler of
    [KeyboardInterrupt]. *)
Definition run_cli (w : surroundings) : M unit :=
  try_except (start (first_run w) (later_cycles w))
    (fun e =>
       match e with
       | KeyboardInterrupt => (print (LF +:+ "Stopping...") ;;; stop)%py
       | _ => raise e
       end).

Definition main (w : surroundings) : M unit :=
  (configure w ;;; run_cli w)%py.

(** The exit status of the process for what [main] did: [sys.exit(n)]
    gives [n], an exception that nobody caught gives 1 (130 for an
    interrupt from the keyboard). *)
Definition exit_status (r : outcome unit) : option Z :=
  match r with
  | Ret _ => Some 0
  | Raise (SystemExit c) => Some c
  | Raise KeyboardInterrupt => Some 130
  | Raise _ => Some 1
  | Pending => None
  end.

(** The state a fresh process starts in. *)
Definition boot (t0 : Z) (os_environ : gmap string string) (is_win32 : bool)
    (dir : string) : state :=
  mkState None false None false None None None t0 os_environ is_win32 dir [].

(** The invocations of the redemption script among the events: calls of
    [subprocess.run] with the 115-second timeout. *)
Definition is_invocation (e : event) : bool :=
  match e with
  | Spawn _ _ _ timeout _ => timeout =? 115
  | _ => false
  end.

Definition invocations (tr : list event) : list event := List.filter is_invocation tr.

Definition is_sleep (e : event) : bool :=
  match e with Sleep _ _ => true | _ => false end.


(** ** Vocabulary of the statements *)

(** Does [c] occur in [s]? *)
Fixpoint occurs (c : ascii) (s : string) : bool :=
  match s with
  | EmptyString => false
  | String c' s' => (if ascii_dec c' c then true else false) || occurs c s'
  end.

(** A quoted value: [q], the text, [q]. *)
Definition quoted (q : ascii) (v : string) : string :=
  String q (v +:+ String q EmptyString).

(** A key as the loader accepts it: not empty, no surrounding blanks, no
    [=] inside, and not starting a comment. *)
Definition plain_key (k : string) : Prop :=
  k <> EmptyString /\ PyStr.strip k = k /\ occurs "="%char k = false
  /\ PyStr.startswith k "#"%char = false.

(** A value as written after the [=]: not empty, no surrounding blanks. *)
Definition plain_value (v : string) : Prop :=
  v <> EmptyString /\ PyStr.strip v = v.

(** The line [k=v] *)
Definition assignment (k v : string) : string := k +:+ String "="%char v.

(** The name under which the credential travels. *)
Definition REDEEM_PASSWORD : string := "REDEEM_PASSWORD".

(** The preflight checks of [main] all pass. *)
Definition preflight_ok (w : surroundings) : Prop :=
  (forall n, arg_interval w = Some n -> 1 <= n)
  /\ key_file_exists w = true
  /\ node_version w = Ret 0
  /\ script_exists w = true.

(** [os.environ] once [.env] has been merged into it. *)
Definition merged_environ (w : surroundings) (s : state) : gmap string string :=
  load_env_file (env_file w) (environ s).

(** The state of the process after the preflight checks have passed. *)
Definition preflight_state (w : surroundings) (s : state) : state :=
  add_event (Spawn (now s) ["node"; "--version"] (merged_environ w s) 5 (win32 s))
            (set_environ (merged_environ w s) s).

(** The one-line [.env] of the scenario: REDEEM_PASSWORD, [=], and abc123
    in double quotes. *)
Definition scenario_env_file : string :=
  assignment REDEEM_PASSWORD (quoted dquote "abc123").

(** ... and after the prompt for the password has been shown. *)
Definition prompted_state (w : surroundings) (s : state) : state :=
  add_event (Getpass "Enter encryption password: ") (preflight_state w s).

(** The prompt was cancelled: interrupt from the keyboard, or end of file. *)
Definition cancelled (typed : outcome string) : Prop :=
  typed = Raise KeyboardInterrupt \/ typed = Raise EOFError.

(** The text [_run_subprocess_sync] reports for an exception it caught. *)
Definition error_text (e : exn) : string :=
  match e with
  | TimeoutExpired => "Script timed out"
  | _ => str_exn e
  end.

(** The state once [subprocess.run] has been called with [args]. *)
Definition spawned (args : list string) (s : state) : state :=
  add_event (Spawn (now s) args (child_env (environ s) (password s)) 115 (win32 s)) s.

(** The arguments of the redemption script (lines 107-109). *)
Definition redemption_args (s : state) : list string :=
  (["npx"; "tsx"; "src/redeem.ts"] ++ (if check_only s then ["--check"] else []))%list.

(** The child outlives the 115 seconds of [subprocess.run]. *)
Definition overruns (c : child) : Prop :=
  match child_seconds c with
  | Some d => 115 < Z.of_N d
  | None => True
  end.

(** What the worker thread answers and after how many seconds; [None]
    when it never answers. *)
Definition thread_answer (l : launch) : option (outcome proc_result * Z) :=
  match l with
  | LaunchError e =>
      Some (if is_Exception e then Ret (mkProcResult (error_text e) (-1)) else Raise e, 0)
  | Launched c reap =>
      let killed :=
        match reap with
        | Some k => Some (Ret (mkProcResult "Script timed out" (-1)), 115 + Z.of_N k)
        | None => None
        end in
      match child_seconds c with
      | Some d =>
          if Z.of_N d <=? 115
          then Some (Ret (mkProcResult (child_stdout c +:+ child_stderr c)
                                       (child_returncode c)), Z.of_N d)
          else killed
      | None => killed
      end
  end.

(** What [wait_for] hands to [_run_redemption], and after how many
    seconds, when nothing disturbs the wait. *)
Definition awaited (l : launch) : outcome proc_result * Z :=
  match thread_answer l with
  | Some (r, d) => if d <? 120 then (r, d) else (Raise AsyncTimeoutError, 120)
  | None => (Raise AsyncTimeoutError, 120)
  end.

(** What [_run_redemption] makes of the answer (lines 117-134). *)
Definition digest (a : outcome proc_result * state) : outcome run_result * state :=
  match a with
  | (Ret d, s1) =>
      (Ret (mkRunResult (result_returncode d =? 0) (Some (result_returncode d)) None),
       if PyStr.truthy (PyStr.strip (output d))
       then add_event (Print (PyStr.strip (output d))) s1 else s1)
  | (Raise AsyncTimeoutError, s1) =>
      (Ret (mkRunResult false None (Some "Timeout")),
       add_event (Print "[ERROR] Redemption script timed out") s1)
  | (Raise e, s1) =>
      if is_Exception e
      then (Ret (mkRunResult false None (Some (str_exn e))),
            add_event (Print ("[ERROR] Failed to run redemption script: " +:+ str_exn e)) s1)
      else (Raise e, s1)
  | (Pending, s1) => (Pending, s1)
  end.

(** The exception an interrupt throws into the coroutine, if any. *)
Definition throws (i : interrupt) (s : state) : option exn :=
  match hit i (bool_decide (is_Some (_task s))) with
  | Some (_, _, t) => t
  | None => None
  end.

(** The fields of the object that no method assigns after [__init__], and
    the process-wide settings. *)
Definition same_settings (s s' : state) : Prop :=
  interval_minutes s' = interval_minutes s
  /\ check_only s' = check_only s
  /\ password s' = password s
  /\ environ s' = environ s
  /\ win32 s' = win32 s
  /\ SCRIPT_DIR s' = SCRIPT_DIR s.

(** The [Spawn] event of an invocation started in state [s]. *)
Definition invocation_event (s : state) : event :=
  Spawn (now s) (redemption_args s) (child_env (environ s) (password s)) 115 (win32 s).

Definition sleeps (tr : list event) : list event := List.filter is_sleep tr.

(** What one call of [_run_redemption], started in [s] and ended in [s'],
    leaves alone and what it adds: the settings and the bookkeeping fields
    stay, at most 120 seconds pass, the stop event is not cleared, and the
    new events are one [Spawn] (when the script file is there) and prints. *)
Definition run_frame (inv : invocation) (s s' : state) : Prop :=
  same_settings s s'
  /\ _task s' = _task s
  /\ _next_run_at s' = _next_run_at s
  /\ _last_run_at s' = _last_run_at s
  /\ now s <= now s' <= now s + 120
  /\ (_stop s = true -> _stop s' = true)
  /\ (disturbance inv = Undisturbed -> _stop s' = _stop s)
  /\ exists evs, trace s' = (trace s ++ evs)%list
                 /\ sleeps evs = []
                 /\ invocations evs =
                      if script_present inv then [invocation_event s] else [].

(** Every exception the surroundings produce during the invocation is an
    error, that is, an [Exception]: the failure to launch, and whatever is
    thrown into the wait.  (A cancellation is no error.) *)
Definition only_errors (inv : invocation) (s : state) : Prop :=
  (forall e, launching inv = LaunchError e -> is_Exception e = true)
  /\ (forall e, throws (disturbance inv) s = Some e -> is_Exception e = true).

(** Print [text] unless it is blank (lines 121-122). *)
Definition print_nonblank (text : string) (s : state) : state :=
  if PyStr.truthy (PyStr.strip text) then add_event (Print (PyStr.strip text)) s else s.

(** The two lines printed before each wait (lines 151-152). *)
Definition next_run_notice (minutes : Z) : string :=
  LF +:+ "Next run scheduled in " +:+ str_int minutes +:+ " minute(s)...".

Definition rule : string := str_mul "-"%char 55.

(** The state in which the wait of a cycle begins: the next run is
    computed as now plus the interval and the two lines are printed. *)
Definition announced (minutes : Z) (s : state) : state :=
  add_event (Sleep (now s) (minutes * 60))
    (add_event (Print rule)
       (add_event (Print (next_run_notice minutes))
          (set_next_run_at (Some (now s + minutes * 60)) s))).

(** The state in which the invocation of a cycle starts: the whole
    interval has been waited and the time of the run is recorded. *)
Definition scheduled (minutes : Z) (s : state) : state :=
  set_last_run_at (Some (now s + minutes * 60))
    (advance (minutes * 60) (announced minutes s)).

(** One undisturbed cycle: announce, wait the interval, invoke. *)
Definition cycle_step (minutes : Z) (s : state) (c : cycle) : state :=
  snd (_run_redemption (run c) (scheduled minutes s)).

(** The state in which the first invocation of [start] begins in
    periodic mode: the stop event cleared, the task created, the time of
    the run recorded; no time has passed and nothing has been printed. *)
Definition started (s : state) : state :=
  set_last_run_at (Some (now s)) (set_task (Some TaskRunning) (set_stop false s)).

(** An invocation that nobody disturbs, whatever the script does:
    success, failure, timeout, or a launch that fails with an error. *)
Definition quiet_run (inv : invocation) : Prop :=
  disturbance inv = Undisturbed
  /\ (forall e, launching inv = LaunchError e -> is_Exception e = true).

(** A cycle in which nobody sets the stop event or cancels. *)
Definition quiet (c : cycle) : Prop :=
  wait c = Undisturbed /\ quiet_run (run c).

(** How many of the invocations found the script file. *)
Definition spawning (invs : list invocation) : nat :=
  length (List.filter script_present invs).

(** The state in which the loop ends when [stop()] is called [a] seconds
    into the wait of a cycle. *)
Definition stopped_in_wait (minutes : Z) (a : N) (s : state) : state :=
  advance (Z.of_N a) (set_stop true (announced minutes s)).

(** No run is active: no task was ever created, or the task is over
    (the loop returned, or it was cancelled). *)
Definition idle (s : state) : Prop :=
  _task s = None
  \/ _task s = Some (TaskDone (Ret tt))
  \/ _task s = Some (TaskDone (Raise CancelledError)).

(** The notice [stop] prints. *)
Definition stopped_notice : string := LF +:+ "Redemption CLI stopped.".

(** A string of whitespace only. *)
Fixpoint blank (s : string) : bool :=
  match s with
  | EmptyString => true
  | String c s' => PyStr.isspace c && blank s'
  end.

(** What a line of [.env] asks for, whatever the environment: a name and
    a value, both non-empty, or nothing. *)
Definition env_line_request (line : string) : option (string * string) :=
  let line := PyStr.strip line in
  if negb (PyStr.truthy line) || PyStr.startswith line "#"%char then None
  else
    match PyStr.split_once "="%char line with
    | None => None
    | Some (key, value) =>
        let key := PyStr.strip key in
        let value := unquote (PyStr.strip value) in
        if PyStr.truthy key && PyStr.truthy value then Some (key, value) else None
    end.

(** The line [k=v] with whitespace before the name, around the [=] and
    after the value. *)
Definition padded_assignment (p1 k p2 p3 v p4 : string) : string :=
  p1 +:+ k +:+ p2 +:+ String "="%char (p3 +:+ v +:+ p4).

(** The interval given on the command line, if any, is at least 1. *)
Definition interval_ok (w : surroundings) : Prop :=
  forall n, arg_interval w = Some n -> 1 <= n.

(** The probe [node --version] tells that Node.js is not usable: it
    returns a non-zero status, or [subprocess.run] raises one of the three
    exceptions that line 288 catches. *)
Definition node_unusable (probe : outcome Z) : Prop :=
  (exists rc, probe = Ret rc /\ rc <> 0)
  \/ probe = Raise TimeoutExpired
  \/ (exists m, probe = Raise (FileNotFoundError m))
  \/ (exists m, probe = Raise (OSError m)).

(** The state after [.env] has been merged, before any check. *)
Definition merged_state (w : surroundings) (s : state) : state :=
  set_environ (merged_environ w s) s.

(** Was the password prompt shown? *)
Definition is_prompt (e : event) : bool :=
  match e with Getpass _ => true | _ => false end.

Definition prompts (tr : list event) : list event := List.filter is_prompt tr.

(** The object [main] builds when the credential comes from the
    environment and the preflight checks have passed. *)
Definition configured (w : surroundings) (s : state) : state :=
  RedemptionCLI (arg_interval w) (arg_check w)
                (merged_environ w s !! REDEEM_PASSWORD) (preflight_state w s).

(** The state after an error thrown [a] seconds into the interval wait
    has been reported by the handler of the loop (line 162). *)
Definition fault_reported (minutes : Z) (a : N) (e : exn) (s : state) : state :=
  add_event (Print ("[ERROR] Error in redemption loop: " +:+ str_exn e))
            (advance (Z.of_N a) (announced minutes s)).

(** The state in which the cooldown of the handler (line 164) begins. *)
Definition cooling (minutes : Z) (a : N) (e : exn) (s : state) : state :=
  add_event (Sleep (now s + Z.of_N a) 60) (fault_reported minutes a e s).

(** The state in which the loop is entered after the first invocation
    and the quiet cycles [pre]. *)
Definition after_cycles (minutes : Z) (first : invocation) (pre : list cycle)
    (s : state) : state :=
  fold_left (cycle_step minutes) pre (snd (_run_redemption first (started s))).

(** ** Sample states and behaviours *)

Definition demo_state : state :=
  RedemptionCLI None false (Some "secret") (boot 1000 ∅ false "/app").

Definition demo_missing_npx : invocation :=
  mkInvocation true (LaunchError (FileNotFoundError "No such file or directory: npx"))
               Undisturbed.

(** A child that never exits; killing it takes [k] seconds, or for ever. *)
Definition hanging_child : child := mkChild "" "" 0 None.

Definition demo_hang (reap : option N) : invocation :=
  mkInvocation true (Launched hanging_child reap) Undisturbed.

Definition demo_ok_child : child := mkChild "Redeemed 2 positions" "" 0 (Some 10%N).

Definition demo_ok : invocation :=
  mkInvocation true (Launched demo_ok_child (Some 0%N)) Undisturbed.

(** Surroundings in which every preflight check passes; [typed] is what
    happens at the password prompt. *)
Definition demo_surroundings (file : option string) (typed : outcome string)
  : surroundings :=
  mkSurroundings file None false false true (Ret 0) true typed demo_ok [].

Definition demo_boot : state := boot 1000 ∅ false "/app".

(** An object in periodic mode, every 15 minutes. *)
Definition demo_periodic : state :=
  RedemptionCLI (Some 15) false (Some "secret") demo_boot.

(** Two cycles in which the invocation fails: [npx] is missing, and the
    child hangs beyond both timeouts. *)
Definition demo_failing_cycles : list cycle :=
  [mkCycle Undisturbed demo_missing_npx Undisturbed;
   mkCycle Undisturbed (demo_hang None) Undisturbed].

(** A cycle during whose wait [stop()] is called after 30 seconds. *)
Definition demo_stop_cycle : cycle := mkCycle (StopCalled 30) demo_ok Undisturbed.

(** A [.env] of four lines: a comment, two definitions of the same name,
    and a definition with an empty value. *)
Definition demo_env_text : string :=
  "# settings" +:+ LF +:+ "MODE=fast" +:+ LF +:+ "MODE=slow" +:+ LF +:+ "EMPTY=".

(** A child that prints on both streams and exits with status 3 after 10
    seconds. *)
Definition demo_failing_child : child :=
  mkChild "checking..." "error: no funds" 3 (Some 10%N).

Definition demo_failing : invocation :=
  mkInvocation true (Launched demo_failing_child (Some 0%N)) Undisturbed.


(** A one-shot run with the password in the environment: [first] is what
    the single invocation meets. *)
Definition demo_env_boot : state :=
  boot 1000 {["REDEEM_PASSWORD" := "secret"]} false "/app".

Definition demo_one_shot (first : invocation) : surroundings :=
  mkSurroundings None None false false true (Ret 0) true Pending first [].

(** Ctrl-C two seconds into the invocation. *)
Definition demo_interrupted : invocation :=
  mkInvocation true (Launched demo_ok_child (Some 0%N)) (Thrown 2 KeyboardInterrupt).

(** Cycles for the fault handler of the loop: an error is thrown 5
    seconds into the wait; in the second one [stop()] is called 10 seconds
    into the cooldown. *)
Definition demo_fault_cycle : cycle :=
  mkCycle (Thrown 5 (OSError "clock failure")) demo_ok Undisturbed.

Definition demo_fault_stop_cycle : cycle :=
  mkCycle (Thrown 5 (OSError "clock failure")) demo_ok (StopCalled 10).

(** The stop event is set, without cancelling, 30 seconds into the wait. *)
Definition demo_flag_cycle : cycle := mkCycle (StopSet 30) demo_ok Undisturbed.

(** [stop()] is called 3 seconds into the invocation. *)
Definition demo_stopped_run : invocation :=
  mkInvocation true (Launched demo_ok_child (Some 0%N)) (StopCalled 3).

Definition demo_stopped_run_cycle : cycle :=
  mkCycle Undisturbed demo_stopped_run Undisturbed.

(** A running task in periodic mode, as the loop sees it. *)
Definition demo_in_loop : state := set_task (Some TaskRunning) demo_periodic.


(** * Properties *)

(** ** The loader of [.env] *)

Section Strings.

Import PyStr.

Lemma lstrip_length s : (String.length (lstrip s) <= String.length s)%nat.
Proof.
  induction s as [|c s IH]; simpl; [lia|].
  destruct (isspace c); simpl; lia.
Qed.

Lemma rstrip_length s : (String.length (rstrip s) <= String.length s)%nat.
Proof.
  induction s as [|c s IH]; simpl; [lia|].
  destruct (rstrip s); [destruct (isspace c)|]; simpl in *; lia.
Qed.

Lemma lstrip_fixed_or_shorter s :
  lstrip s = s \/ (String.length (lstrip s) < String.length s)%nat.
Proof.
  destruct s as [|c s]; simpl; [now left|].
  destruct (isspace c); [right|now left].
  pose proof (lstrip_length s). lia.
Qed.

(** A string that [strip] leaves alone is left alone by both halves. *)
Lemma strip_fixed s : strip s = s -> lstrip s = s /\ rstrip s = s.
Proof.
  unfold strip. intros H.
  destruct (lstrip_fixed_or_shorter s) as [E|L].
  - rewrite E in H. auto.
  - pose proof (rstrip_length (lstrip s)) as R. rewrite H in R. lia.
Qed.

Lemma lstrip_head c s : isspace c = false -> lstrip (String c s) = String c s.
Proof. simpl. now intros ->. Qed.

Lemma lstrip_fixed_head c s : lstrip (String c s) = String c s -> isspace c = false.
Proof.
  simpl. destruct (isspace c); [|reflexivity].
  intros H. pose proof (lstrip_length s) as L. rewrite H in L. simpl in L. lia.
Qed.

Lemma rstrip_cons c r :
  r <> EmptyString -> rstrip r = r -> rstrip (String c r) = String c r.
Proof.
  intros Hr E. simpl. rewrite E. destruct r; [congruence|reflexivity].
Qed.

Lemma app_nonempty s t : t <> EmptyString -> s +:+ t <> EmptyString.
Proof. destruct s; simpl; [auto|discriminate]. Qed.

(** [rstrip] looks at the end of the string only. *)
Lemma rstrip_app s t :
  t <> EmptyString -> rstrip t = t -> rstrip (s +:+ t) = s +:+ t.
Proof.
  intros Ht E. induction s as [|c s IH]; [exact E|].
  change (String c s +:+ t) with (String c (s +:+ t)).
  apply rstrip_cons; [now apply app_nonempty|exact IH].
Qed.

Lemma rstrip_single q : isspace q = false -> rstrip (String q EmptyString) = String q EmptyString.
Proof. simpl. now intros ->. Qed.

Lemma endswith_snoc s q : endswith (s +:+ String q EmptyString) q = true.
Proof.
  induction s as [|c s IH].
  - simpl. destruct (ascii_dec q q); congruence.
  - change (String c s +:+ String q EmptyString)
      with (String c (s +:+ String q EmptyString)).
    pose proof (app_nonempty s (String q EmptyString)) as N.
    destruct (s +:+ String q EmptyString) eqn:E; [exfalso; now apply N|exact IH].
Qed.

Lemma drop_last_snoc s q : drop_last (s +:+ String q EmptyString) = s.
Proof.
  induction s as [|c s IH]; [reflexivity|].
  change (String c s +:+ String q EmptyString)
    with (String c (s +:+ String q EmptyString)).
  pose proof (app_nonempty s (String q EmptyString)) as N.
  destruct (s +:+ String q EmptyString) eqn:E; [exfalso; now apply N|].
  simpl in *. now rewrite IH.
Qed.

Lemma split_once_app c k v :
  occurs c k = false -> split_once c (k +:+ String c v) = Some (k, v).
Proof.
  induction k as [|c' k IH]; simpl.
  - intros _. destruct (ascii_dec c c); congruence.
  - destruct (ascii_dec c' c); simpl; [discriminate|].
    intros H. now rewrite (IH H).
Qed.

Lemma truthy_true s : s <> EmptyString -> truthy s = true.
Proof. destruct s; simpl; congruence. Qed.

End Strings.

Section Loader.

Import PyStr.

Lemma unquote_dquote v : unquote (quoted dquote v) = v.
Proof.
  unfold unquote, quoted.
  change (startswith (String dquote (v +:+ String dquote EmptyString)) dquote) with true.
  assert (E : endswith (String dquote (v +:+ String dquote EmptyString)) dquote = true)
    by apply (endswith_snoc (String dquote v)).
  rewrite E. simpl. apply drop_last_snoc.
Qed.

Lemma unquote_squote v : unquote (quoted squote v) = v.
Proof.
  unfold unquote, quoted.
  change (startswith (String squote (v +:+ String squote EmptyString)) dquote) with false.
  change (startswith (String squote (v +:+ String squote EmptyString)) squote) with true.
  assert (E : endswith (String squote (v +:+ String squote EmptyString)) squote = true)
    by apply (endswith_snoc (String squote v)).
  rewrite E. simpl. apply drop_last_snoc.
Qed.

Lemma strip_assignment k v :
  plain_key k -> plain_value v -> strip (assignment k v) = assignment k v.
Proof.
  intros (Hk & Sk & _ & _) (Hv & Sv).
  destruct (strip_fixed _ Sk) as [Lk _].
  destruct (strip_fixed _ Sv) as [_ Rv].
  destruct k as [|c k]; [congruence|].
  unfold strip, assignment.
  change (String c k +:+ String "="%char v) with (String c (k +:+ String "="%char v)).
  rewrite (lstrip_head _ _ (lstrip_fixed_head _ _ Lk)).
  apply rstrip_cons; [apply app_nonempty; discriminate|].
  apply rstrip_app; [discriminate|].
  apply rstrip_cons; assumption.
Qed.

(** A [KEY=VALUE] line defines [KEY] when it is not defined yet. *)
Lemma load_env_line_assignment (environ : gmap string string) k v :
  plain_key k -> plain_value v -> unquote v <> EmptyString ->
  environ !! k = None ->
  load_env_line environ (assignment k v) = <[k := unquote v]> environ.
Proof.
  intros Pk Pv Hu Hfree. unfold load_env_line.
  rewrite (strip_assignment _ _ Pk Pv).
  destruct Pk as (Hk & Sk & Ok & Ck). destruct Pv as (Hv & Sv).
  assert (T : truthy (assignment k v) = true)
    by (apply truthy_true, app_nonempty; discriminate).
  assert (C : startswith (assignment k v) "#"%char = false).
  { destruct k; [congruence|exact Ck]. }
  rewrite T, C. simpl negb. simpl orb. cbv iota.
  unfold assignment. rewrite (split_once_app _ _ _ Ok).
  rewrite Sk, Sv, (truthy_true _ Hk), (truthy_true _ Hu), Hfree.
  rewrite bool_decide_eq_false_2; [reflexivity|].
  intros [x Hx]. discriminate.
Qed.

(** Blank lines and comment lines change nothing. *)
Lemma load_env_line_skipped (environ : gmap string string) line :
  strip line = EmptyString \/ startswith (strip line) "#"%char = true ->
  load_env_line environ line = environ.
Proof.
  unfold load_env_line. intros [-> | ->]; [reflexivity|].
  now rewrite orb_true_r.
Qed.

(** No line changes a name that is defined already. *)
Lemma load_env_line_keeps (environ : gmap string string) line k v :
  environ !! k = Some v -> load_env_line environ line !! k = Some v.
Proof.
  intros H. unfold load_env_line.
  destruct (negb _ || _); [exact H|].
  destruct (split_once _ _) as [[key value]|]; [|exact H].
  destruct (truthy (strip key) && truthy (unquote (strip value))
            && negb (bool_decide (is_Some (environ !! strip key)))) eqn:E;
    [|exact H].
  apply andb_true_iff in E as [_ E]. apply negb_true_iff in E.
  apply bool_decide_eq_false in E.
  destruct (decide (strip key = k)) as [Heq|N].
  - exfalso. apply E. exists v. now rewrite Heq.
  - now rewrite lookup_insert_ne.
Qed.

Lemma load_env_lines_keep ls : forall (environ : gmap string string) k v,
  environ !! k = Some v -> fold_left load_env_line ls environ !! k = Some v.
Proof.
  induction ls as [|l ls IH]; intros environ k v H; simpl; [exact H|].
  apply IH. now apply load_env_line_keeps.
Qed.

Lemma load_env_file_keeps f (environ : gmap string string) k v :
  environ !! k = Some v -> load_env_file f environ !! k = Some v.
Proof.
  destruct f as [text|]; simpl; [apply load_env_lines_keep|auto].
Qed.

End Loader.

(** ** [main] up to the construction of the object *)

Section Configure.

Variable w : surroundings.
Variable s : state.
Hypothesis preflight : preflight_ok w.

Lemma interval_accepted :
  match arg_interval w with
  | Some n => n <? 1
  | None => false
  end = false.
Proof.
  destruct preflight as (Hi & _).
  destruct (arg_interval w) as [n|]; [|reflexivity].
  specialize (Hi n eq_refl). lia.
Qed.

(** The credential is in the environment: no prompt. *)
Lemma configure_from_environ :
  truthy_opt (merged_environ w s !! REDEEM_PASSWORD) = true ->
  configure w s =
    (Ret tt, RedemptionCLI (arg_interval w) (arg_check w)
                           (merged_environ w s !! REDEEM_PASSWORD)
                           (preflight_state w s)).
Proof.
  pose proof interval_accepted as I.
  destruct preflight as (Hi & Hk & Hn & Hs). intros T.
  unfold configure, bind, modify, check_key_setup, check_node, try_except, get, ret.
  rewrite Hk, Hn, Hs. cbn [negb].
  change (load_env_file (env_file w) (environ s)) with (merged_environ w s).
  destruct (arg_interval w) as [n|] eqn:An.
  - rewrite I.
    cbn -[merged_environ RedemptionCLI lookup].
    unfold REDEEM_PASSWORD in T. rewrite T. reflexivity.
  - cbn -[merged_environ RedemptionCLI lookup].
    unfold REDEEM_PASSWORD in T. rewrite T. reflexivity.
Qed.

(** No usable credential in the environment: the prompt decides. *)
Lemma configure_prompts :
  truthy_opt (merged_environ w s !! REDEEM_PASSWORD) = false ->
  configure w s =
    match typed w with
    | Ret p =>
        (Ret tt, RedemptionCLI (arg_interval w) (arg_check w) (Some p)
                               (prompted_state w s))
    | Raise KeyboardInterrupt | Raise EOFError =>
        (Raise (SystemExit 0),
         add_event (Print (LF +:+ "Cancelled.")) (prompted_state w s))
    | Raise e => (Raise e, prompted_state w s)
    | Pending => (Pending, prompted_state w s)
    end.
Proof.
  pose proof interval_accepted as I.
  destruct preflight as (Hi & Hk & Hn & Hs). intros T.
  unfold configure, bind, modify, check_key_setup, check_node, try_except, get, ret.
  rewrite Hk, Hn, Hs. cbn [negb].
  change (load_env_file (env_file w) (environ s)) with (merged_environ w s).
  unfold REDEEM_PASSWORD in T.
  destruct (arg_interval w) as [n|] eqn:An.
  - rewrite I.
    cbn -[merged_environ RedemptionCLI lookup].
    rewrite T. cbn -[merged_environ RedemptionCLI lookup].
    destruct (typed w) as [p|e|]; [reflexivity| |reflexivity].
    destruct e; reflexivity.
  - cbn -[merged_environ RedemptionCLI lookup].
    rewrite T. cbn -[merged_environ RedemptionCLI lookup].
    destruct (typed w) as [p|e|]; [reflexivity| |reflexivity].
    destruct e; reflexivity.
Qed.

End Configure.

(** ** The invoker: [_run_subprocess_sync] and [_run_redemption] *)

Section Invoker.

Lemma set_now_spawned args s d :
  set_now (now s) (advance d (spawned args s)) = spawned args s.
Proof. destruct s; reflexivity. Qed.

Lemma set_now_id s : set_now (now s) s = s.
Proof. destruct s; reflexivity. Qed.

Lemma advance_0 s : advance 0 s = s.
Proof. destruct s; unfold advance, set_now; simpl. now rewrite Z.add_0_r. Qed.

(** [_run_subprocess_sync] in one equation. *)
Lemma run_subprocess_sync_answer args l s :
  _run_subprocess_sync args l s =
    match thread_answer l with
    | Some (r, d) => (r, advance d (spawned args s))
    | None => (Pending, spawned args s)
    end.
Proof.
  unfold _run_subprocess_sync, thread_answer, try_except, bind, get, ret,
    subprocess_run, modify, raise, spawned.
  destruct l as [e|c reap].
  - rewrite advance_0. destruct e; reflexivity.
  - destruct (child_seconds c) as [d|].
    + destruct (Z.of_N d <=? 115); [reflexivity|].
      destruct reap; reflexivity.
    + destruct reap; reflexivity.
Qed.

Lemma thread_answer_not_pending l d : thread_answer l <> Some (Pending, d).
Proof.
  unfold thread_answer. destruct l as [e|c reap].
  - destruct (is_Exception e); congruence.
  - destruct (child_seconds c) as [n|]; [destruct (Z.of_N n <=? 115)|];
      try destruct reap; congruence.
Qed.

Lemma now_advance d s : now (advance d s) = now s + d.
Proof. reflexivity. Qed.

Lemma now_spawned args s : now (spawned args s) = now s.
Proof. reflexivity. Qed.

(** The supervised call: what the coroutine awaits. *)
Lemma wait_for_sync args l i s :
  wait_for (_run_subprocess_sync args l) 120 i s =
    await (Some (snd (awaited l))) (fst (awaited l)) i (spawned args s).
Proof.
  unfold wait_for, awaited. rewrite run_subprocess_sync_answer.
  pose proof (thread_answer_not_pending l) as NP.
  destruct (thread_answer l) as [[r d]|].
  - rewrite set_now_spawned, now_advance, now_spawned.
    replace (now s + d - now s) with d by lia.
    destruct r as [a|e|]; [| |exfalso; now apply (NP d)];
      destruct (d <? 120); reflexivity.
  - replace (set_now (now s) (spawned args s)) with (spawned args s)
      by (destruct s; reflexivity).
    reflexivity.
Qed.

(** [_run_redemption] when the script file is there ... *)
Lemma run_redemption_present inv s :
  script_present inv = true ->
  _run_redemption inv s =
    digest (await (Some (snd (awaited (launching inv)))) (fst (awaited (launching inv)))
                  (disturbance inv) (spawned (redemption_args s) s)).
Proof.
  intros P. unfold _run_redemption, bind at 1, get at 1. rewrite P. cbn [negb].
  unfold bind at 1, get at 1, try_except, bind at 1.
  fold (redemption_args s). rewrite wait_for_sync.
  destruct (await _ _ _ _) as [[d|e|] s1]; cbn [digest].
  - unfold when, bind, print, modify, ret.
    destruct (PyStr.truthy (PyStr.strip (output d))); reflexivity.
  - destruct e; reflexivity.
  - reflexivity.
Qed.

(** ... and when it is not. *)
Lemma run_redemption_absent inv s :
  script_present inv = false ->
  _run_redemption inv s =
    (Ret (mkRunResult false None (Some "Script not found")),
     add_event (Print ("[ERROR] Redemption script not found at "
                       +:+ REDEMPTION_SCRIPT_PATH s)) s).
Proof.
  intros P. unfold _run_redemption, bind at 1, get at 1. rewrite P. reflexivity.
Qed.

(** What an [await] can do to the state and to the answer. *)
Lemma await_inv {A} d (r : outcome A) i s r' s1 :
  0 <= d ->
  await (Some d) r i s = (r', s1) ->
  exists a (b : bool),
    0 <= a <= d
    /\ s1 = advance a (if b then set_stop true s else s)
    /\ ((r' = r /\ a = d) \/ exists e, r' = Raise e /\ throws i s = Some e)
    /\ (throws i s = None -> r' = r /\ a = d)
    /\ (i = Undisturbed -> b = false).
Proof.
  intros Hd. unfold await, throws, finish.
  destruct (hit i (bool_decide (is_Some (_task s)))) as [[[a sets] thrown]|] eqn:H.
  - unfold strikes_before. destruct (Z.of_N a <? d) eqn:L.
    + destruct thrown as [e|]; intros [= <- <-].
      * exists (Z.of_N a), sets. repeat split; try lia; eauto; try discriminate.
        intros ->. discriminate.
      * exists d, sets. repeat split; try lia; eauto.
        intros ->. discriminate.
    + intros [= <- <-]. exists d, false. repeat split; try lia; eauto.
  - intros [= <- <-]. exists d, false. repeat split; try lia; eauto.
Qed.

Lemma thread_answer_time l r d : thread_answer l = Some (r, d) -> 0 <= d.
Proof.
  unfold thread_answer. destruct l as [e|c reap].
  - intros [= _ <-]. lia.
  - destruct (child_seconds c) as [n|]; [destruct (Z.of_N n <=? 115)|];
      try destruct reap; intros [= _ <-]; lia.
Qed.

Lemma thread_answer_raise l e d :
  thread_answer l = Some (Raise e, d) -> l = LaunchError e /\ is_Exception e = false.
Proof.
  unfold thread_answer. destruct l as [e'|c reap].
  - destruct (is_Exception e') eqn:X; intros [= <- _]; auto.
  - destruct (child_seconds c) as [n|]; [destruct (Z.of_N n <=? 115)|];
      try destruct reap; discriminate.
Qed.

Lemma awaited_time l : 0 <= snd (awaited l) <= 120.
Proof.
  unfold awaited. destruct (thread_answer l) as [[r d]|] eqn:E; [|simpl; lia].
  apply thread_answer_time in E. destruct (d <? 120) eqn:L; simpl; lia.
Qed.

Lemma awaited_not_pending l : fst (awaited l) <> Pending.
Proof.
  unfold awaited. pose proof (thread_answer_not_pending l) as NP.
  destruct (thread_answer l) as [[r d]|]; [|discriminate].
  destruct (d <? 120); [|discriminate]. simpl. intros ->. now apply (NP d).
Qed.

Lemma awaited_raise l e :
  fst (awaited l) = Raise e ->
  e = AsyncTimeoutError \/ (l = LaunchError e /\ is_Exception e = false).
Proof.
  unfold awaited. destruct (thread_answer l) as [[r d]|] eqn:E.
  - destruct (d <? 120); simpl.
    + intros ->. right. eapply thread_answer_raise, E.
    + intros [= <-]. now left.
  - simpl. intros [= <-]. now left.
Qed.

(** The state after the supervised call, and one more print. *)
Lemma run_frame_present inv s a (b : bool) (more : list event) :
  script_present inv = true ->
  0 <= a <= 120 ->
  (disturbance inv = Undisturbed -> b = false) ->
  sleeps more = [] -> invocations more = [] ->
  run_frame inv s
    (fold_left (fun st ev => add_event ev st) more
       (advance a (if b then set_stop true (spawned (redemption_args s) s)
                   else spawned (redemption_args s) s))).
Proof.
  intros P Ha Hb Hs Hi. unfold run_frame, same_settings. rewrite P.
  assert (G : forall st,
    let st' := fold_left (fun st ev => add_event ev st) more st in
    interval_minutes st' = interval_minutes st /\ check_only st' = check_only st
    /\ password st' = password st /\ environ st' = environ st
    /\ win32 st' = win32 st /\ SCRIPT_DIR st' = SCRIPT_DIR st
    /\ _task st' = _task st /\ _next_run_at st' = _next_run_at st
    /\ _last_run_at st' = _last_run_at st /\ now st' = now st
    /\ _stop st' = _stop st /\ trace st' = (trace st ++ more)%list).
  { clear. induction more as [|ev more IH]; intros st; simpl.
    - rewrite app_nil_r. repeat split; reflexivity.
    - destruct (IH (add_event ev st)) as (?&?&?&?&?&?&?&?&?&?&?&T).
      simpl in *. rewrite T, <- app_assoc. repeat split; assumption. }
  match goal with |- context [fold_left _ more ?st] => destruct (G st) as
      (G1&G2&G3&G4&G5&G6&G7&G8&G9&G10&G11&G12) end.
  rewrite G1, G2, G3, G4, G5, G6, G7, G8, G9, G10, G11, G12.
  destruct b.
  - simpl. repeat split; auto; try lia.
    + intros U. specialize (Hb U). discriminate.
    + exists (invocation_event s :: more). rewrite <- app_assoc.
      unfold sleeps, invocations in *. simpl. rewrite Hs, Hi.
      repeat split; reflexivity.
  - simpl. repeat split; auto; try lia.
    exists (invocation_event s :: more). rewrite <- app_assoc.
    unfold sleeps, invocations in *. simpl. rewrite Hs, Hi.
    repeat split; reflexivity.
Qed.

(** What one call of [_run_redemption] can and cannot change. *)
Lemma run_redemption_frame inv s r s' :
  _run_redemption inv s = (r, s') -> run_frame inv s s'.
Proof.
  destruct (script_present inv) eqn:P.
  - rewrite (run_redemption_present _ _ P).
    destruct (await _ _ _ _) as [r1 s1] eqn:E.
    pose proof (awaited_time (launching inv)) as T.
    apply await_inv in E as (a & b & Ha & -> & _ & _ & Hu); [|lia].
    assert (Ha' : 0 <= a <= 120) by lia.
    pose proof (fun more => run_frame_present inv s a b more P Ha' Hu) as F.
    unfold digest.
    destruct r1 as [d|e|].
    + destruct (PyStr.truthy (PyStr.strip (output d))); intros [= <- <-].
      * apply (F [Print (PyStr.strip (output d))]); reflexivity.
      * apply (F []); reflexivity.
    + destruct e; simpl; intros [= <- <-];
        first [ apply (F []); reflexivity | apply (F [Print _]); reflexivity ].
    + intros [= <- <-]. apply (F []); reflexivity.
  - rewrite (run_redemption_absent _ _ P). intros [= <- <-].
    unfold run_frame, same_settings. rewrite P.
    repeat split; try reflexivity; try (simpl; lia); auto.
    eexists [_]. repeat split; reflexivity.
Qed.

(** [_run_redemption] always answers, and what it lets through is no
    [Exception]: it was thrown in from outside, or [subprocess.run]
    raised it. *)
Lemma run_redemption_outcome inv s r s' :
  _run_redemption inv s = (r, s') ->
  r <> Pending
  /\ (forall e, r = Raise e ->
                is_Exception e = false
                /\ (throws (disturbance inv) s = Some e \/ launching inv = LaunchError e)).
Proof.
  destruct (script_present inv) eqn:P.
  - rewrite (run_redemption_present _ _ P).
    destruct (await _ _ _ _) as [r1 s1] eqn:E.
    pose proof (awaited_time (launching inv)) as T.
    pose proof (awaited_not_pending (launching inv)) as NP.
    pose proof (awaited_raise (launching inv)) as AR.
    apply await_inv in E as (a & b & Ha & -> & Hr & _ & _); [|lia].
    change (throws (disturbance inv) (spawned (redemption_args s) s))
      with (throws (disturbance inv) s) in Hr.
    unfold digest. destruct r1 as [d|e|].
    + intros [= <- <-]. split; [discriminate|]. intros e [=].
    + destruct (is_Exception e) eqn:X.
      * destruct e; try discriminate X; intros [= <- <-];
          (split; [discriminate|intros e' [=]]).
      * assert (K : throws (disturbance inv) s = Some e \/ launching inv = LaunchError e).
        { destruct Hr as [[Er _]|(e' & [= <-] & Ht)]; [|now left].
          symmetry in Er. destruct (AR _ Er) as [->|[L _]]; [discriminate X|now right]. }
        destruct e; try discriminate X; intros [= <- <-];
          (split; [discriminate|intros e' [= <-]; split; [reflexivity|exact K]]).
    + exfalso. destruct Hr as [[Er _]|(e & [=] & _)]. now apply NP.
  - rewrite (run_redemption_absent _ _ P). intros [= <- <-].
    split; [discriminate|]. intros e [=].
Qed.

End Invoker.

(** ** Claims about the configuration *)

Section Scenario.

Lemma plain_key_REDEEM_PASSWORD : plain_key REDEEM_PASSWORD.
Proof. repeat split; try reflexivity. discriminate. Qed.

Lemma plain_value_quoted_abc123 : plain_value (quoted dquote "abc123").
Proof. split; [discriminate|reflexivity]. Qed.

(** The scenario's file, merged into an environment without the name. *)
Lemma scenario_merged (environ : gmap string string) :
  environ !! REDEEM_PASSWORD = None ->
  load_env_file (Some scenario_env_file) environ !! REDEEM_PASSWORD = Some "abc123".
Proof.
  intros H. unfold load_env_file.
  change (PyStr.lines scenario_env_file) with [scenario_env_file].
  cbn [fold_left]. unfold scenario_env_file.
  rewrite load_env_line_assignment;
    auto using plain_key_REDEEM_PASSWORD, plain_value_quoted_abc123.
  rewrite unquote_dquote. apply lookup_insert_eq.
Qed.

End Scenario.

(** C8. The loader of [.env].  A line [KEY=VALUE] defines [KEY] as the
    value without one layer of surrounding quotes, when [KEY] is not yet
    defined; a value in double or in single quotes loses exactly that
    layer; blank lines and lines starting with [#] change nothing; a name
    already present in the environment keeps its value whatever the file
    says; and with the one-line file of the scenario and the name unset,
    the object is built with the password abc123. *)
Theorem env_file_merge :
  (forall (environ : gmap string string) k v,
      plain_key k -> plain_value v -> unquote v <> EmptyString ->
      environ !! k = None ->
      load_env_line environ (assignment k v) = <[k := unquote v]> environ)
  /\ (forall v, unquote (quoted dquote v) = v /\ unquote (quoted squote v) = v)
  /\ (forall (environ : gmap string string) line,
        PyStr.strip line = EmptyString
        \/ PyStr.startswith (PyStr.strip line) "#"%char = true ->
        load_env_line environ line = environ)
  /\ (forall f (environ : gmap string string) k v,
        environ !! k = Some v -> load_env_file f environ !! k = Some v)
  /\ (forall w s,
        env_file w = Some scenario_env_file ->
        environ s !! REDEEM_PASSWORD = None ->
        preflight_ok w ->
        exists s', configure w s = (Ret tt, s') /\ password s' = Some "abc123").
Proof.
  split; [exact load_env_line_assignment|].
  split; [intros v; split; [apply unquote_dquote|apply unquote_squote]|].
  split; [exact load_env_line_skipped|].
  split; [exact load_env_file_keeps|].
  intros w s F H P.
  assert (M : merged_environ w s !! REDEEM_PASSWORD = Some "abc123").
  { unfold merged_environ. rewrite F. now apply scenario_merged. }
  rewrite (configure_from_environ w s P); [|now rewrite M].
  eexists. split; [reflexivity|]. exact M.
Qed.

Lemma env_file_merge_witness :
  load_env_line ∅ (assignment "API_KEY" "'k 1'") = <["API_KEY" := "k 1"]> ∅
  /\ load_env_line ∅ "  # a comment" = ∅
  /\ load_env_file (Some scenario_env_file) {["REDEEM_PASSWORD" := "old"]}
       !! "REDEEM_PASSWORD" = Some "old"
  /\ exists s', configure (demo_surroundings (Some scenario_env_file) Pending) demo_boot
                = (Ret tt, s')
                /\ password s' = Some "abc123".
Proof.
  destruct env_file_merge as (A & _ & B & C & D).
  split; [|split; [|split]].
  - apply (A ∅ "API_KEY" "'k 1'").
    + repeat split; try reflexivity. discriminate.
    + split; [discriminate|reflexivity].
    + discriminate.
    + reflexivity.
  - apply B. right. reflexivity.
  - apply C. reflexivity.
  - apply D.
    + reflexivity.
    + reflexivity.
    + repeat split; try reflexivity. discriminate.
Defined.

Section Credential.

Lemma child_env_empty (environ : gmap string string) :
  child_env environ (Some EmptyString) = environ.
Proof. reflexivity. Qed.

Lemma trace_prompted w s :
  In (Getpass "Enter encryption password: ") (trace (prompted_state w s)).
Proof. unfold prompted_state. simpl. apply in_or_app. right. now left. Qed.

(** An empty [REDEEM_PASSWORD] in the environment survives the merge
    and does not count as a credential. *)
Lemma empty_password_not_usable w s :
  environ s !! REDEEM_PASSWORD = Some EmptyString ->
  truthy_opt (merged_environ w s !! REDEEM_PASSWORD) = false.
Proof.
  intros H. unfold merged_environ.
  now rewrite (load_env_file_keeps _ _ _ _ H).
Qed.

(** A cancelled prompt ends [main] before [start] is reached. *)
Lemma main_prompt_cancelled w s :
  preflight_ok w ->
  truthy_opt (merged_environ w s !! REDEEM_PASSWORD) = false ->
  cancelled (typed w) ->
  main w s = (Raise (SystemExit 0),
              add_event (Print (LF +:+ "Cancelled.")) (prompted_state w s)).
Proof.
  intros P T C. unfold main, bind.
  rewrite (configure_prompts w s P T).
  destruct C as [-> | ->]; reflexivity.
Qed.

End Credential.

(** C10. An empty credential counts as no credential.  With
    [REDEEM_PASSWORD] set to the empty string in the environment (and the
    preflight checks passed) the password prompt is shown, and what is
    typed there becomes the password; and with the empty string as
    password the child's environment is [os.environ] as it is, which is
    the environment [subprocess.run] is called with. *)
Theorem empty_credential_is_absent :
  (forall w s,
      preflight_ok w ->
      environ s !! REDEEM_PASSWORD = Some EmptyString ->
      In (Getpass "Enter encryption password: ") (trace (snd (configure w s)))
      /\ (forall p, typed w = Ret p ->
            configure w s
            = (Ret tt, RedemptionCLI (arg_interval w) (arg_check w) (Some p)
                                     (prompted_state w s))))
  /\ (forall environ : gmap string string, child_env environ (Some EmptyString) = environ)
  /\ (forall args l s,
        password s = Some EmptyString ->
        In (Spawn (now s) args (environ s) 115 (win32 s))
           (trace (snd (_run_subprocess_sync args l s)))).
Proof.
  split; [|split; [exact child_env_empty|]].
  - intros w s P H.
    pose proof (empty_password_not_usable w s H) as T.
    rewrite (configure_prompts w s P T). split.
    + destruct (typed w) as [p|e|]; [apply trace_prompted| |apply trace_prompted].
      destruct e; first [apply trace_prompted
                        | simpl; apply in_or_app; left; apply trace_prompted].
    + now intros p ->.
  - intros args l s H. rewrite run_subprocess_sync_answer.
    assert (In (Spawn (now s) args (environ s) 115 (win32 s)) (trace (spawned args s))).
    { unfold spawned. rewrite H, child_env_empty. simpl.
      apply in_or_app. right. now left. }
    destruct (thread_answer l) as [[r d]|]; exact H0.
Qed.

Lemma empty_credential_is_absent_witness :
  In (Getpass "Enter encryption password: ")
     (trace (snd (configure (demo_surroundings None (Ret "typed"))
                            (boot 1000 {["REDEEM_PASSWORD" := EmptyString]} false "/app"))))
  /\ In (Spawn 1000 ["npx"] ∅ 115 false)
        (trace (snd (_run_subprocess_sync ["npx"] (launching demo_ok)
                       (RedemptionCLI None false (Some EmptyString) demo_boot)))).
Proof.
  destruct empty_credential_is_absent as (A & _ & B). split.
  - apply A; [|reflexivity].
    repeat split; try reflexivity. discriminate.
  - apply (B ["npx"] (launching demo_ok)
             (RedemptionCLI None false (Some EmptyString) demo_boot)).
    reflexivity.
Defined.

(** C6, as the spec has it, fails: a prompt cancelled from the keyboard
    ends the process with exit status 0, not with a non-zero one. *)
Lemma prompt_cancel_exit_status_counterexample :
  cancelled (typed (demo_surroundings None (Raise KeyboardInterrupt)))
  /\ ~ (exists c,
          exit_status (fst (main (demo_surroundings None (Raise KeyboardInterrupt))
                                 demo_boot)) = Some c
          /\ c <> 0).
Proof.
  split; [now left|].
  rewrite main_prompt_cancelled.
  - simpl. intros (c & [= <-] & N). now apply N.
  - repeat split; try reflexivity. discriminate.
  - reflexivity.
  - now left.
Qed.

(** C6, amended.  When the preflight checks have passed, the environment
    holds no usable credential and the prompt is cancelled (interrupt from
    the keyboard or end of file), [main] prints ["Cancelled."] and leaves
    through [sys.exit(0)]: the exit status is 0, [start] is never
    reached, and no invocation has been made. *)
Theorem prompt_cancel_exits_before_core (w : surroundings) (s : state) :
  preflight_ok w ->
  truthy_opt (merged_environ w s !! REDEEM_PASSWORD) = false ->
  cancelled (typed w) ->
  main w s = (Raise (SystemExit 0),
              add_event (Print (LF +:+ "Cancelled.")) (prompted_state w s))
  /\ exit_status (fst (main w s)) = Some 0
  /\ invocations (trace (snd (main w s))) = invocations (trace s).
Proof.
  intros P T C. rewrite (main_prompt_cancelled w s P T C).
  split; [reflexivity|]. split; [reflexivity|].
  unfold invocations. simpl.
  rewrite !List.filter_app. simpl. now rewrite !app_nil_r.
Qed.

Lemma prompt_cancel_exits_before_core_witness :
  exit_status (fst (main (demo_surroundings None (Raise EOFError)) demo_boot)) = Some 0.
Proof.
  apply (prompt_cancel_exits_before_core (demo_surroundings None (Raise EOFError))
                                         demo_boot).
  - repeat split; try reflexivity. discriminate.
  - reflexivity.
  - now right.
Defined.

(** ** Claims about the invoker *)

Section InvokerClaims.

Lemma await_zero {A} (r : outcome A) i s : await (Some 0) r i s = (r, s).
Proof.
  unfold await, finish, strikes_before. rewrite advance_0.
  destruct (hit i _) as [[[a sets] thrown]|]; [|reflexivity].
  destruct (Z.of_N a <? 0) eqn:L; [apply Z.ltb_lt in L; lia|reflexivity].
Qed.

Lemma awaited_launch_error e :
  is_Exception e = true ->
  awaited (LaunchError e) = (Ret (mkProcResult (error_text e) (-1)), 0).
Proof. unfold awaited, thread_answer. now intros ->. Qed.

(** A launch failure, seen from [_run_redemption]. *)
Lemma run_redemption_launch_error inv s e :
  script_present inv = true -> launching inv = LaunchError e ->
  is_Exception e = true ->
  _run_redemption inv s =
    (Ret (mkRunResult false (Some (-1)) None),
     print_nonblank (error_text e) (spawned (redemption_args s) s)).
Proof.
  intros P L X. rewrite (run_redemption_present _ _ P), L.
  rewrite (awaited_launch_error _ X). cbn [fst snd]. rewrite await_zero.
  reflexivity.
Qed.

Lemma only_errors_returns inv s :
  only_errors inv s -> exists r s', _run_redemption inv s = (Ret r, s').
Proof.
  intros [HL HT].
  destruct (_run_redemption inv s) as [r s'] eqn:E.
  destruct (run_redemption_outcome _ _ _ _ E) as [NP HR].
  destruct r as [a|e|]; [eauto| |congruence].
  destruct (HR e eq_refl) as [X [T|L]].
  - rewrite (HT _ T) in X. discriminate.
  - rewrite (HL _ L) in X. discriminate.
Qed.

End InvokerClaims.

(** C1. Errors of the action never leave the invoker as exceptions.  When
    every exception the surroundings produce during an invocation is an
    error ([Exception]): [_run_redemption] returns a result; the thread
    function [_run_subprocess_sync] raises nothing; and when launching
    the child fails with [e], [_run_subprocess_sync] returns the
    dictionary with ["returncode"] -1 and the error text as ["output"],
    and [_run_redemption] returns [success = False] with exit code -1
    after printing that text. *)
Theorem action_errors_become_data (inv : invocation) (s : state) :
  only_errors inv s ->
  (exists r s', _run_redemption inv s = (Ret r, s'))
  /\ (forall args e, fst (_run_subprocess_sync args (launching inv) s) <> Raise e)
  /\ (forall e, launching inv = LaunchError e ->
        (forall args,
            _run_subprocess_sync args (launching inv) s
            = (Ret (mkProcResult (error_text e) (-1)), spawned args s))
        /\ (script_present inv = true ->
            _run_redemption inv s
            = (Ret (mkRunResult false (Some (-1)) None),
               print_nonblank (error_text e) (spawned (redemption_args s) s)))).
Proof.
  intros H. split; [now apply only_errors_returns|].
  destruct H as [HL HT]. split.
  - intros args e. rewrite run_subprocess_sync_answer.
    destruct (thread_answer (launching inv)) as [[r d]|] eqn:E; [|discriminate].
    simpl. intros ->. apply thread_answer_raise in E as [L X].
    rewrite (HL _ L) in X. discriminate.
  - intros e L. split.
    + intros args. rewrite run_subprocess_sync_answer, L. simpl.
      rewrite (HL _ L), advance_0. reflexivity.
    + intros P. apply run_redemption_launch_error; auto.
Qed.

Lemma action_errors_become_data_witness :
  only_errors demo_missing_npx demo_state
  /\ _run_redemption demo_missing_npx demo_state
     = (Ret (mkRunResult false (Some (-1)) None),
        print_nonblank "No such file or directory: npx"
          (spawned (redemption_args demo_state) demo_state)).
Proof.
  assert (H : only_errors demo_missing_npx demo_state).
  { split; intros e; [intros [= <-]; reflexivity|discriminate]. }
  split; [exact H|].
  destruct (action_errors_become_data demo_missing_npx demo_state H) as (_ & _ & L).
  destruct (L _ eq_refl) as [_ R]. exact (R eq_refl).
Defined.

Section Timeouts.

Variables (inv : invocation) (s : state) (c : child) (reap : option N).
Hypothesis launched : launching inv = Launched c reap.
Hypothesis too_long : overruns c.

Lemma thread_answer_overrun :
  thread_answer (launching inv) =
    match reap with
    | Some k => Some (Ret (mkProcResult "Script timed out" (-1)), 115 + Z.of_N k)
    | None => None
    end.
Proof.
  rewrite launched. unfold thread_answer. unfold overruns in too_long.
  destruct (child_seconds c) as [d|]; [|reflexivity].
  destruct (Z.of_N d <=? 115) eqn:L; [apply Z.leb_le in L; lia|reflexivity].
Qed.

(** The inner timeout fired and the kill was quick: the thread's answer
    gets through. *)
Lemma awaited_inner k :
  reap = Some k -> Z.of_N k < 5 ->
  awaited (launching inv) = (Ret (mkProcResult "Script timed out" (-1)), 115 + Z.of_N k).
Proof.
  intros R K. unfold awaited. rewrite thread_answer_overrun, R.
  destruct (115 + Z.of_N k <? 120) eqn:L; [reflexivity|apply Z.ltb_ge in L; lia].
Qed.

(** The thread is too late or never answers: the outer timeout fires. *)
Lemma awaited_outer :
  (reap = None \/ exists k, reap = Some k /\ 5 <= Z.of_N k) ->
  awaited (launching inv) = (Raise AsyncTimeoutError, 120).
Proof.
  intros R. unfold awaited. rewrite thread_answer_overrun.
  destruct R as [->|(k & -> & K)]; [reflexivity|].
  destruct (115 + Z.of_N k <? 120) eqn:L; [apply Z.ltb_lt in L; lia|reflexivity].
Qed.

End Timeouts.

(** C4. A child that outlives the 115 seconds of [subprocess.run] makes
    the invocation fail, and the call is over after 120 seconds at most.
    With the script present and nothing thrown into the wait:
    [_run_subprocess_sync] answers ["Script timed out"] with return code
    -1 once the child is reaped; [_run_redemption] returns
    [success = False] no later than 120 seconds after it started, either
    with exit code -1 after printing ["Script timed out"] (the thread
    answered in time) or, when the outer timeout fires, with the error
    ["Timeout"] after printing that the script timed out: a failed result
    and no exception in both cases.  And whatever happens, no call of
    [_run_redemption] stays pending or takes more than 120 seconds. *)
Theorem overrun_fails_within_outer_timeout
    (inv : invocation) (s : state) (c : child) (reap : option N) :
  launching inv = Launched c reap ->
  overruns c ->
  script_present inv = true ->
  throws (disturbance inv) s = None ->
  (forall args k, reap = Some k ->
      _run_subprocess_sync args (launching inv) s
      = (Ret (mkProcResult "Script timed out" (-1)),
         advance (115 + Z.of_N k) (spawned args s)))
  /\ (exists r s',
        _run_redemption inv s = (Ret r, s')
        /\ success r = false
        /\ now s' <= now s + 120
        /\ ((exists k, reap = Some k /\ Z.of_N k < 5
                       /\ r = mkRunResult false (Some (-1)) None
                       /\ In (Print "Script timed out") (trace s'))
            \/ ((reap = None \/ exists k, reap = Some k /\ 5 <= Z.of_N k)
                /\ r = mkRunResult false None (Some "Timeout")
                /\ In (Print "[ERROR] Redemption script timed out") (trace s'))))
  /\ (forall inv' s0,
        fst (_run_redemption inv' s0) <> Pending
        /\ now (snd (_run_redemption inv' s0)) <= now s0 + 120).
Proof.
  intros L O P T. split; [|split].
  - intros args k ->. rewrite run_subprocess_sync_answer.
    now rewrite (thread_answer_overrun _ _ _ L O).
  - rewrite (run_redemption_present _ _ P).
    destruct (await _ _ _ _) as [r1 s1] eqn:E.
    pose proof (awaited_time (launching inv)) as Tm.
    apply await_inv in E as (a & b & Ha & -> & _ & Hq & _); [|lia].
    destruct (Hq T) as [-> ->]. clear Hq.
    assert (D : (exists k, reap = Some k /\ Z.of_N k < 5)
                \/ (reap = None \/ exists k, reap = Some k /\ 5 <= Z.of_N k)).
    { destruct reap as [k|]; [|right; now left].
      destruct (Z_lt_le_dec (Z.of_N k) 5); [left|right; right]; eauto. }
    destruct D as [(k & R & K)|R].
    + rewrite (awaited_inner _ _ _ L O k R K) in *. cbn [fst snd digest] in *.
      eexists _, _. split; [reflexivity|]. split; [reflexivity|].
      split; [destruct b; simpl; lia|].
      left. exists k. repeat split; auto.
      destruct b; simpl; apply in_or_app; right; now left.
    + rewrite (awaited_outer _ _ _ L O R) in *. cbn [fst snd digest] in *.
      eexists _, _. split; [reflexivity|]. split; [reflexivity|].
      split; [destruct b; simpl; lia|].
      right. repeat split; auto.
      destruct b; simpl; apply in_or_app; right; now left.
  - intros inv' s0. destruct (_run_redemption inv' s0) as [r s'] eqn:E. simpl.
    split; [apply (run_redemption_outcome _ _ _ _ E)|].
    apply (run_redemption_frame _ _ _ _ E).
Qed.

Lemma overrun_fails_within_outer_timeout_witness :
  exists r s',
    _run_redemption (demo_hang None) demo_state = (Ret r, s')
    /\ success r = false
    /\ now s' <= now demo_state + 120.
Proof.
  destruct (overrun_fails_within_outer_timeout (demo_hang None) demo_state
              hanging_child None eq_refl I eq_refl eq_refl)
    as (_ & (r & s' & E & F & T & _) & _).
  exists r, s'. auto.
Defined.

(** ** The scheduler: [_run_loop], [start] and [stop] *)

Section Scheduler.

Lemma quiet_run_only_errors inv s : quiet_run inv -> only_errors inv s.
Proof.
  intros [U L]. split; [exact L|].
  unfold throws. rewrite U. discriminate.
Qed.

Lemma quiet_run_returns inv s :
  quiet_run inv ->
  exists r, _run_redemption inv s = (Ret r, snd (_run_redemption inv s)).
Proof.
  intros Q.
  destruct (only_errors_returns inv s (quiet_run_only_errors _ s Q)) as (r & s' & E).
  exists r. now rewrite E.
Qed.

Lemma quiet_run_keeps_stop inv s :
  quiet_run inv -> _stop (snd (_run_redemption inv s)) = _stop s.
Proof.
  intros [U _]. destruct (_run_redemption inv s) as [r s'] eqn:E.
  apply run_redemption_frame in E. simpl. now apply E.
Qed.

(** The body of the loop in a quiet cycle. *)
Lemma loop_body_quiet minutes c s :
  1 <= minutes -> _stop s = false -> quiet c ->
  loop_body minutes (minutes * 60) c s = (Ret tt, cycle_step minutes s c).
Proof.
  intros M S [W Q]. unfold loop_body, cycle_step.
  destruct (only_errors_returns _ _ (quiet_run_only_errors _ (scheduled minutes s) Q))
    as (r & s' & E).
  rewrite E. cbn [snd].
  rewrite W.
  cbn [bind get modify print sleep await finish when ret hit
       _stop set_stop set_next_run_at add_event advance set_now now].
  rewrite S. cbn [negb bind get modify ret now set_next_run_at add_event advance set_now].
  replace (Z.max 0 (minutes * 60)) with (minutes * 60) by lia.
  unfold when. cbn [bind get modify ret]. unfold bind.
  match goal with
  | |- context [_run_redemption (run c) ?st] => change st with (scheduled minutes s)
  end.
  rewrite E. reflexivity.
Qed.

Lemma cycle_step_frame minutes s c :
  run_frame (run c) (scheduled minutes s) (cycle_step minutes s c).
Proof.
  unfold cycle_step.
  destruct (_run_redemption (run c) (scheduled minutes s)) as [r s'] eqn:E.
  exact (run_redemption_frame _ _ _ _ E).
Qed.

Lemma cycle_step_stop minutes s c :
  quiet c -> _stop (cycle_step minutes s c) = _stop s.
Proof. intros [_ Q]. unfold cycle_step. now rewrite quiet_run_keeps_stop. Qed.

Lemma fold_cycle_step_stop minutes cycles : forall s,
  Forall quiet cycles ->
  _stop (fold_left (cycle_step minutes) cycles s) = _stop s.
Proof.
  induction cycles as [|c rest IH]; intros s Q; [reflexivity|].
  inversion Q as [|? ? Qc Qr]; subst. simpl.
  rewrite (IH _ Qr). now apply cycle_step_stop.
Qed.

(** The loop runs through quiet cycles one [cycle_step] at a time. *)
Lemma loop_quiet_prefix minutes pre more : forall s,
  1 <= minutes -> _stop s = false -> Forall quiet pre ->
  loop minutes (minutes * 60) (pre ++ more) s
  = loop minutes (minutes * 60) more (fold_left (cycle_step minutes) pre s).
Proof.
  induction pre as [|c rest IH]; intros s M S Q; [reflexivity|].
  inversion Q as [|? ? Qc Qr]; subst.
  change ((c :: rest) ++ more)%list with (c :: (rest ++ more))%list.
  cbn [loop fold_left]. rewrite S, (loop_body_quiet _ _ _ M S Qc).
  apply IH; auto. now rewrite cycle_step_stop.
Qed.

Lemma loop_quiet minutes cycles s :
  1 <= minutes -> _stop s = false -> Forall quiet cycles ->
  loop minutes (minutes * 60) cycles s
  = (Pending, fold_left (cycle_step minutes) cycles s).
Proof.
  intros M S Q.
  rewrite <- (app_nil_r cycles) at 1.
  rewrite (loop_quiet_prefix _ _ _ _ M S Q). cbn [loop].
  now rewrite (fold_cycle_step_stop _ _ _ Q), S.
Qed.

(** The stop event is set when the loop looks at it: nothing happens. *)
Lemma loop_stopped minutes seconds cycles s :
  _stop s = true -> loop minutes seconds cycles s = (Ret tt, s).
Proof. intros S. destruct cycles; simpl; now rewrite S. Qed.

Lemma bind_get {A B} (f : state -> A) (k : A -> M B) s :
  bind (get f) k s = k (f s) s.
Proof. reflexivity. Qed.

Lemma bind_modify {B} (f : state -> state) (k : unit -> M B) s :
  bind (modify f) k s = k tt (f s).
Proof. reflexivity. Qed.

Lemma bind_raise {A B} (m : M A) (k : A -> M B) s e s' :
  m s = (Raise e, s') -> bind m k s = (Raise e, s').
Proof. unfold bind. now intros ->. Qed.

(** [stop()] called [a] seconds into a sleep cancels it there. *)
Lemma sleep_stop_called seconds a s :
  is_Some (_task s) -> Z.of_N a < seconds ->
  sleep seconds (StopCalled a) s
  = (Raise CancelledError,
     advance (Z.of_N a) (set_stop true (add_event (Sleep (now s) seconds) s))).
Proof.
  intros T A. unfold sleep. rewrite bind_get, bind_modify.
  unfold await. cbn [hit _task add_event].
  rewrite (bool_decide_eq_true_2 _ T). unfold strikes_before.
  destruct (Z.of_N a <? Z.max 0 seconds) eqn:L;
    [reflexivity|apply Z.ltb_ge in L; lia].
Qed.

Lemma loop_body_stop_called minutes c a s :
  is_Some (_task s) -> wait c = StopCalled a -> Z.of_N a < minutes * 60 ->
  loop_body minutes (minutes * 60) c s
  = (Raise CancelledError, stopped_in_wait minutes a s).
Proof.
  intros T W A. unfold loop_body, print.
  rewrite bind_get, bind_modify, bind_modify, bind_modify, W.
  apply bind_raise. now apply sleep_stop_called.
Qed.

(** [stop()] is called during the wait of the first cycle. *)
Lemma loop_stop_called minutes c rest a s :
  _stop s = false -> is_Some (_task s) ->
  wait c = StopCalled a -> Z.of_N a < minutes * 60 ->
  loop minutes (minutes * 60) (c :: rest) s
  = (Ret tt, stopped_in_wait minutes a s).
Proof.
  intros S T W A. cbn [loop]. rewrite S.
  now rewrite (loop_body_stop_called _ _ _ _ T W A).
Qed.

(** [_run_loop] up to the point where the quiet cycles are used up. *)
Lemma run_loop_quiet_prefix minutes first pre more s :
  interval_minutes s = Some minutes -> 1 <= minutes ->
  quiet_run first -> Forall quiet pre ->
  _run_loop first (pre ++ more) (set_task (Some TaskRunning) (set_stop false s))
  = loop minutes (minutes * 60) more
      (fold_left (cycle_step minutes) pre (snd (_run_redemption first (started s)))).
Proof.
  intros I M Q1 Q.
  destruct (only_errors_returns _ _ (quiet_run_only_errors _ (started s) Q1))
    as (r & s1 & E).
  pose proof (run_redemption_frame _ _ _ _ E) as F.
  pose proof (quiet_run_keeps_stop first (started s) Q1) as K.
  rewrite E in *. cbn [snd] in *.
  unfold _run_loop. cbn [bind get modify ret now]. unfold bind.
  match goal with
  | |- context [_run_redemption first ?st] => change st with (started s)
  end.
  rewrite E. unfold get.
  replace (interval_minutes s1) with (Some minutes)
    by (destruct F as ((-> & _) & _); simpl; now rewrite I).
  apply loop_quiet_prefix; auto.
Qed.

Lemma start_periodic first cycles s minutes :
  interval_minutes s = Some minutes ->
  start first cycles s = run_as_task (_run_loop first cycles) (set_stop false s).
Proof. intros I. unfold start, bind, get. now rewrite I. Qed.

Lemma same_settings_trans s1 s2 s3 :
  same_settings s1 s2 -> same_settings s2 s3 -> same_settings s1 s3.
Proof.
  unfold same_settings. intros (?&?&?&?&?&?) (?&?&?&?&?&?).
  repeat split; congruence.
Qed.

(** One cycle, event by event. *)
Lemma cycle_step_events minutes s c :
  _next_run_at (cycle_step minutes s c) = Some (now s + minutes * 60)
  /\ _last_run_at (cycle_step minutes s c) = Some (now s + minutes * 60)
  /\ now s + minutes * 60 <= now (cycle_step minutes s c)
  /\ same_settings s (cycle_step minutes s c)
  /\ _task (cycle_step minutes s c) = _task s
  /\ exists evs,
       trace (cycle_step minutes s c)
       = (trace s ++ [Print (next_run_notice minutes); Print rule;
                      Sleep (now s) (minutes * 60)] ++ evs)%list
       /\ sleeps evs = []
       /\ invocations evs
          = if script_present (run c) then [invocation_event (scheduled minutes s)]
            else [].
Proof.
  destruct (cycle_step_frame minutes s c)
    as (F1 & F2 & F3 & F4 & F5 & _ & _ & evs & F6 & F7 & F8).
  rewrite F3, F4, F2. repeat split; try reflexivity; try apply F1.
  - simpl in F5. lia.
  - exists evs. rewrite F6. simpl. rewrite <- !app_assoc. auto.
Qed.

(** Any number of cycles: one wait each, one spawn for each invocation
    that finds the script. *)
Lemma fold_cycle_step_frame minutes cycles : forall s,
  let s' := fold_left (cycle_step minutes) cycles s in
  same_settings s s'
  /\ _task s' = _task s
  /\ length (sleeps (trace s')) = (length (sleeps (trace s)) + length cycles)%nat
  /\ length (invocations (trace s'))
     = (length (invocations (trace s)) + spawning (map run cycles))%nat.
Proof.
  induction cycles as [|c rest IH]; intros s; simpl.
  - unfold same_settings, spawning. simpl. repeat split; lia.
  - destruct (IH (cycle_step minutes s c)) as (I1 & I2 & I3 & I4).
    destruct (cycle_step_events minutes s c) as (_ & _ & _ & E1 & E2 & evs & E3 & E4 & E5).
    split; [eapply same_settings_trans; eauto|].
    split; [congruence|].
    rewrite I3, I4, E3. unfold sleeps, invocations, spawning in *.
    rewrite !List.filter_app, !length_app, E4, E5. simpl.
    destruct (script_present (run c)); simpl; lia.
Qed.

End Scheduler.

(** ** Claims about the scheduler *)

(** C2. Periodic mode.  With an interval of [minutes >= 1], a first
    invocation and any number of cycles in which nobody sets the stop
    event or cancels, whatever the invocations return: [start] begins the
    first invocation in a state in which no time has passed and nothing
    was printed or waited for; then every cycle sets [_next_run_at] to
    now plus the interval, prints the notice and the rule, sleeps the
    whole interval and invokes the script at that time; and when the
    recorded cycles are used up the loop is still running ([Pending]): no
    result of an invocation ends it.  There is one wait per cycle and one
    spawn per invocation that finds the script. *)
Theorem periodic_schedule
    (minutes : Z) (first : invocation) (cycles : list cycle) (s : state) :
  1 <= minutes ->
  interval_minutes s = Some minutes ->
  quiet_run first ->
  Forall quiet cycles ->
  let s1 := snd (_run_redemption first (started s)) in
  let final := fold_left (cycle_step minutes) cycles s1 in
  start first cycles s = (Pending, final)
  /\ (now (started s) = now s /\ trace (started s) = trace s
      /\ _last_run_at (started s) = Some (now s))
  /\ (exists r, _run_redemption first (started s) = (Ret r, s1))
  /\ (forall st c,
        _next_run_at (cycle_step minutes st c) = Some (now st + minutes * 60)
        /\ _last_run_at (cycle_step minutes st c) = Some (now st + minutes * 60)
        /\ exists evs,
             trace (cycle_step minutes st c)
             = (trace st ++ [Print (next_run_notice minutes); Print rule;
                             Sleep (now st) (minutes * 60)] ++ evs)%list
             /\ sleeps evs = []
             /\ invocations evs
                = if script_present (run c)
                  then [Spawn (now st + minutes * 60) (redemption_args st)
                              (child_env (environ st) (password st)) 115 (win32 st)]
                  else [])
  /\ length (sleeps (trace final)) = (length (sleeps (trace s)) + length cycles)%nat
  /\ length (invocations (trace final))
     = (length (invocations (trace s)) + spawning (first :: map run cycles))%nat.
Proof.
  intros M I Q1 Q s1 final.
  destruct (only_errors_returns _ _ (quiet_run_only_errors _ (started s) Q1))
    as (r & s1' & E).
  assert (S1 : s1 = s1') by (unfold s1; now rewrite E). subst s1'.
  pose proof (run_redemption_frame _ _ _ _ E)
    as (F1 & F2 & _ & _ & _ & _ & _ & evs & F6 & F7 & F8).
  split; [|split; [|split; [|split]]].
  - rewrite (start_periodic _ _ _ _ I). unfold run_as_task.
    pose proof (run_loop_quiet_prefix minutes first cycles [] s I M Q1 Q) as R.
    rewrite app_nil_r in R. rewrite R. fold s1. cbn [loop].
    replace (_stop (fold_left (cycle_step minutes) cycles s1)) with false; [reflexivity|].
    rewrite (fold_cycle_step_stop _ _ _ Q). unfold s1.
    now rewrite (quiet_run_keeps_stop _ _ Q1).
  - repeat split.
  - eauto.
  - intros st c.
    destruct (cycle_step_events minutes st c) as (A & B & _ & _ & _ & C).
    split; [exact A|]. split; [exact B|]. exact C.
  - destruct (fold_cycle_step_frame minutes cycles s1) as (_ & _ & G3 & G4).
    fold final in G3, G4. rewrite G3, G4, F6.
    unfold sleeps, invocations, spawning in *.
    rewrite !List.filter_app, !length_app, F7, F8. cbn [started trace set_last_run_at
      set_task set_stop map List.filter].
    destruct (script_present first); simpl; split; lia.
Qed.

Lemma periodic_schedule_witness :
  fst (start demo_ok demo_failing_cycles demo_periodic) = Pending
  /\ length (invocations (trace (snd (start demo_ok demo_failing_cycles demo_periodic))))
     = 3%nat
  /\ length (sleeps (trace (snd (start demo_ok demo_failing_cycles demo_periodic))))
     = 2%nat.
Proof.
  assert (Q1 : quiet_run demo_ok) by (split; [reflexivity|discriminate]).
  assert (Q : Forall quiet demo_failing_cycles).
  { repeat constructor; try discriminate.
    intros e [= <-]. reflexivity. }
  destruct (periodic_schedule 15 demo_ok demo_failing_cycles demo_periodic
              ltac:(lia) eq_refl Q1 Q) as (E & _ & _ & _ & S & V).
  rewrite E. cbn [fst snd]. split; [reflexivity|]. split; [exact V|exact S].
Defined.

Section OneShot.

Variables (first : invocation) (cycles : list cycle) (s : state).
Hypothesis one_shot : interval_minutes s = None.

Lemma start_one_shot :
  start first cycles s
  = match _run_redemption first s with
    | (Ret _, s') => (Ret tt, s')
    | (Raise e, s') => (Raise e, s')
    | (Pending, s') => (Pending, s')
    end.
Proof. unfold start, bind, get. now rewrite one_shot. Qed.

Lemma start_one_shot_state :
  snd (start first cycles s) = snd (_run_redemption first s).
Proof.
  rewrite start_one_shot.
  destruct (_run_redemption first s) as [[r|e|] s']; reflexivity.
Qed.

End OneShot.

(** C3. One-shot mode.  With [interval_minutes = None], [start] is one
    call of [_run_redemption] and nothing else: it ends in the state that
    call ends in, it does not stay pending (and returns normally when the
    surroundings produce errors only), [_next_run_at] and [_task] are as
    before, no wait is among the new events, and there is exactly one
    spawn of the script (none when the script file is missing and the
    invocation fails at once). *)
Theorem one_shot_runs_once (first : invocation) (cycles : list cycle) (s : state) :
  interval_minutes s = None ->
  snd (start first cycles s) = snd (_run_redemption first s)
  /\ fst (start first cycles s) <> Pending
  /\ (only_errors first s -> fst (start first cycles s) = Ret tt)
  /\ _next_run_at (snd (start first cycles s)) = _next_run_at s
  /\ _task (snd (start first cycles s)) = _task s
  /\ exists evs,
       trace (snd (start first cycles s)) = (trace s ++ evs)%list
       /\ sleeps evs = []
       /\ invocations evs = if script_present first then [invocation_event s] else [].
Proof.
  intros I. rewrite (start_one_shot_state _ cycles _ I), (start_one_shot _ cycles _ I).
  destruct (_run_redemption first s) as [r s'] eqn:E.
  destruct (run_redemption_outcome _ _ _ _ E) as [NP _].
  destruct (run_redemption_frame _ _ _ _ E) as (_ & F2 & F3 & _ & _ & _ & _ & F8).
  cbn [snd]. split; [reflexivity|]. split; [destruct r; [discriminate..|congruence]|].
  split; [|auto].
  intros O. destruct (only_errors_returns _ _ O) as (r' & s'' & E').
  rewrite E in E'. injection E' as -> _. reflexivity.
Qed.

Lemma one_shot_runs_once_witness :
  fst (start demo_ok [] demo_state) = Ret tt
  /\ _next_run_at (snd (start demo_ok [] demo_state)) = None.
Proof.
  destruct (one_shot_runs_once demo_ok [] demo_state eq_refl)
    as (_ & _ & R & N & _).
  split; [|exact N].
  apply R. split; intros e; discriminate.
Defined.

(** C7.  The one-shot branch of [start] calls [_run_redemption] directly
    and never assigns [_last_run_at]: on a fresh one-shot object the field
    is still [None] when [start] is over.  [_run_loop], which [start]
    uses in periodic mode only, has a one-shot branch of its own that
    does record the time of the run. *)
Theorem one_shot_start_skips_last_run_at
    (first : invocation) (cycles : list cycle) (check : bool)
    (pw : option string) (s0 : state) :
  _last_run_at (snd (start first cycles (RedemptionCLI None check pw s0))) = None
  /\ _last_run_at (snd (_run_loop first cycles (RedemptionCLI None check pw s0)))
     = Some (now s0).
Proof.
  split.
  - rewrite start_one_shot_state by reflexivity.
    destruct (_run_redemption first (RedemptionCLI None check pw s0)) as [r s'] eqn:E.
    apply run_redemption_frame in E. cbn [snd].
    destruct E as (_ & _ & _ & -> & _). reflexivity.
  - unfold _run_loop. rewrite bind_get, bind_modify. unfold bind.
    destruct (_run_redemption first _) as [r s'] eqn:E.
    apply run_redemption_frame in E.
    destruct E as ((I & _) & _ & _ & L & _).
    destruct r as [a|e|]; cbn [snd]; try exact L.
    unfold get. rewrite I. cbn. exact L.
Qed.

(** C5. Stopping.  When [stop()] is called [a] seconds into the interval
    wait of a cycle (after a first invocation and any number of quiet
    cycles), the loop ends at that very moment: [start] returns, the clock
    is the time of the call, the stop event is set and no invocation has
    been added to those made before the wait.  And when the stop event is
    set as the loop tests it, the loop returns at once in the same state:
    no invocation, no next run scheduled. *)
Theorem stop_ends_the_loop
    (minutes : Z) (first : invocation) (pre : list cycle) (c : cycle)
    (rest : list cycle) (a : N) (s : state) :
  1 <= minutes ->
  interval_minutes s = Some minutes ->
  quiet_run first ->
  Forall quiet pre ->
  wait c = StopCalled a ->
  Z.of_N a < minutes * 60 ->
  let waiting :=
    fold_left (cycle_step minutes) pre (snd (_run_redemption first (started s))) in
  start first (pre ++ c :: rest) s
  = (Ret tt, set_task (Some (TaskDone (Ret tt))) (stopped_in_wait minutes a waiting))
  /\ now (stopped_in_wait minutes a waiting) = now waiting + Z.of_N a
  /\ _stop (stopped_in_wait minutes a waiting) = true
  /\ invocations (trace (stopped_in_wait minutes a waiting)) = invocations (trace waiting)
  /\ (forall m seconds cycles' st,
        _stop st = true -> loop m seconds cycles' st = (Ret tt, st)).
Proof.
  intros M I Q1 Q W A waiting.
  split; [|split; [reflexivity|split; [reflexivity|split]]].
  - rewrite (start_periodic _ _ _ _ I). unfold run_as_task.
    rewrite (run_loop_quiet_prefix minutes first pre (c :: rest) s I M Q1 Q).
    fold waiting.
    assert (S : _stop waiting = false).
    { unfold waiting. rewrite (fold_cycle_step_stop _ _ _ Q).
      now rewrite (quiet_run_keeps_stop _ _ Q1). }
    assert (T : is_Some (_task waiting)).
    { unfold waiting.
      destruct (fold_cycle_step_frame minutes pre
                  (snd (_run_redemption first (started s)))) as (_ & T1 & _).
      rewrite T1.
      destruct (_run_redemption first (started s)) as [r s1] eqn:E. cbn [snd].
      apply run_redemption_frame in E. destruct E as (_ & T2 & _).
      rewrite T2. simpl. eauto. }
    now rewrite (loop_stop_called _ _ _ _ _ S T W A).
  - unfold invocations, stopped_in_wait, announced. simpl.
    rewrite !List.filter_app. simpl. now rewrite !app_nil_r.
  - intros m seconds cycles' st. apply loop_stopped.
Qed.

Lemma stop_ends_the_loop_witness :
  fst (start demo_ok (demo_failing_cycles ++ demo_stop_cycle :: demo_failing_cycles)
             demo_periodic) = Ret tt
  /\ loop 15 900 demo_failing_cycles (set_stop true demo_periodic)
     = (Ret tt, set_stop true demo_periodic).
Proof.
  assert (Q1 : quiet_run demo_ok) by (split; [reflexivity|discriminate]).
  assert (Q : Forall quiet demo_failing_cycles).
  { repeat constructor; try discriminate.
    intros e [= <-]. reflexivity. }
  destruct (stop_ends_the_loop 15 demo_ok demo_failing_cycles demo_stop_cycle
              demo_failing_cycles 30 demo_periodic
              ltac:(lia) eq_refl Q1 Q eq_refl ltac:(lia)) as (E & _ & _ & _ & L).
  split; [now rewrite E|].
  apply L. reflexivity.
Defined.

Section Stop.

Lemma set_stop_twice s : set_stop true (set_stop true s) = set_stop true s.
Proof. reflexivity. Qed.

(** [stop] on an object without an active run. *)
Lemma stop_idle s :
  idle s ->
  stop s = (Ret tt, add_event (Print stopped_notice) (set_stop true s)).
Proof.
  unfold stop. rewrite bind_modify, bind_get. cbn [_task set_stop].
  intros [-> | [-> | ->]]; reflexivity.
Qed.

Lemma idle_after_stop s :
  idle s -> idle (add_event (Print stopped_notice) (set_stop true s)).
Proof. exact (fun H => H). Qed.

Lemma idle_fresh i c p s0 : idle (RedemptionCLI i c p s0).
Proof. now left. Qed.

(** When [start] has returned, no run is active any more. *)
Lemma idle_after_start first cycles s s' :
  idle s -> start first cycles s = (Ret tt, s') -> idle s'.
Proof.
  intros H. destruct (interval_minutes s) as [m|] eqn:I.
  - rewrite (start_periodic _ _ _ _ I). unfold run_as_task.
    destruct (_run_loop first cycles _) as [[[]|e|] s1]; [| |discriminate].
    + intros [= <-]. right. now left.
    + destruct e; intros [= <-]. right. now right.
  - intros E. pose proof (start_one_shot_state first cycles s I) as S.
    rewrite E in S. cbn [snd] in S. subst s'.
    destruct (_run_redemption first s) as [r s1] eqn:R.
    apply run_redemption_frame in R. destruct R as (_ & T & _).
    unfold idle in *. cbn [snd]. now rewrite T.
Qed.

End Stop.

(** C9. [stop] without an active run.  On an object for which no task
    was ever created, or whose task is over, [stop] returns normally: it
    sets the stop event, prints its notice and leaves the object without
    an active run, so that a second [stop] returns normally as well and
    changes nothing but the printed notice.  A fresh object is in that
    condition, and so is every object on which [start] has returned. *)
Theorem stop_without_active_run :
  (forall s,
      idle s ->
      stop s = (Ret tt, add_event (Print stopped_notice) (set_stop true s))
      /\ stop (snd (stop s))
         = (Ret tt, add_event (Print stopped_notice)
                      (add_event (Print stopped_notice) (set_stop true s))))
  /\ (forall i c p s0, idle (RedemptionCLI i c p s0))
  /\ (forall first cycles s s',
        idle s -> start first cycles s = (Ret tt, s') -> idle s').
Proof.
  split; [|split; [exact idle_fresh|exact idle_after_start]].
  intros s H. rewrite (stop_idle s H). split; [reflexivity|].
  cbn [snd]. rewrite (stop_idle _ (idle_after_stop s H)). reflexivity.
Qed.

Lemma stop_without_active_run_witness :
  fst (stop demo_state) = Ret tt
  /\ fst (stop (snd (stop (snd (start demo_ok [] demo_state))))) = Ret tt.
Proof.
  destruct stop_without_active_run as (A & B & C).
  split.
  - destruct (A demo_state (B _ _ _ _)) as [E _]. now rewrite E.
  - assert (I : idle (snd (start demo_ok [] demo_state))).
    { apply (C demo_ok [] demo_state); [apply B|reflexivity]. }
    destruct (A _ I) as [_ E]. now rewrite E.
Defined.

(** * Further properties *)

(** ** More about the loader of [.env] *)

Section LoaderRequests.

Import PyStr.

(** The loop body, split into what the line asks for and what the
    environment allows. *)
Lemma load_env_line_request (environ : gmap string string) line :
  load_env_line environ line =
    match env_line_request line with
    | Some (k, v) =>
        if bool_decide (is_Some (environ !! k)) then environ else <[k := v]> environ
    | None => environ
    end.
Proof.
  unfold load_env_line, env_line_request.
  destruct (negb _ || _); [reflexivity|].
  destruct (split_once _ _) as [[key value]|]; [|reflexivity].
  destruct (truthy (strip key) && truthy (unquote (strip value))); [|reflexivity].
  cbn [andb]. destruct (bool_decide _); reflexivity.
Qed.

Lemma rstrip_idem s : rstrip (rstrip s) = rstrip s.
Proof.
  induction s as [|c s IH]; [reflexivity|]. simpl.
  destruct (rstrip s) as [|c' r] eqn:E.
  - destruct (isspace c) eqn:X; simpl; [reflexivity|now rewrite X].
  - change (rstrip (String c (String c' r))) with
      (match rstrip (String c' r) with
       | EmptyString => if isspace c then EmptyString else String c EmptyString
       | r' => String c r'
       end).
    now rewrite IH.
Qed.

Lemma lstrip_idem s : lstrip (lstrip s) = lstrip s.
Proof.
  induction s as [|c s IH]; [reflexivity|]. simpl.
  destruct (isspace c) eqn:X; [exact IH|]. simpl. now rewrite X.
Qed.

(** [rstrip] keeps the first character of what it leaves. *)
Lemma lstrip_rstrip_fixed u : lstrip u = u -> lstrip (rstrip u) = rstrip u.
Proof.
  destruct u as [|c u]; [reflexivity|]. intros H.
  pose proof (lstrip_fixed_head _ _ H) as X. simpl.
  destruct (rstrip u); [rewrite X|]; simpl; now rewrite X.
Qed.

Lemma strip_idem s : strip (strip s) = strip s.
Proof.
  unfold strip.
  rewrite (lstrip_rstrip_fixed _ (lstrip_idem s)). apply rstrip_idem.
Qed.

Lemma truthy_nonempty s : truthy s = true -> s <> EmptyString.
Proof. destruct s; [discriminate|discriminate]. Qed.

(** A request names a non-empty, trimmed key and a non-empty value. *)
Lemma env_line_request_shape line k v :
  env_line_request line = Some (k, v) ->
  k <> EmptyString /\ v <> EmptyString /\ strip k = k.
Proof.
  unfold env_line_request.
  destruct (negb _ || _); [discriminate|].
  destruct (split_once _ _) as [[key value]|]; [|discriminate].
  destruct (truthy (strip key)) eqn:Tk; [|discriminate].
  destruct (truthy (unquote (strip value))) eqn:Tv; [|discriminate].
  intros [= <- <-]. repeat split; auto using truthy_nonempty, strip_idem.
Qed.

End LoaderRequests.

Section LoaderFold.

Lemma load_env_lines_only_add ls : forall (environ : gmap string string) k v,
  fold_left load_env_line ls environ !! k = Some v ->
  environ !! k = Some v
  \/ (environ !! k = None /\ k <> EmptyString /\ v <> EmptyString /\ PyStr.strip k = k).
Proof.
  induction ls as [|l ls IH]; intros environ k v H; [now left|].
  cbn [fold_left] in H. apply IH in H.
  rewrite load_env_line_request in H.
  destruct (env_line_request l) as [[k' v']|] eqn:R; [|exact H].
  destruct (bool_decide (is_Some (environ !! k'))) eqn:D; [exact H|].
  apply bool_decide_eq_false in D.
  destruct (env_line_request_shape _ _ _ R) as (Nk & Nv & Sk).
  destruct (decide (k' = k)) as [->|Ne].
  - rewrite lookup_insert_eq in H.
    assert (environ !! k = None) as E.
    { destruct (environ !! k) eqn:E; [exfalso; apply D; eauto|reflexivity]. }
    destruct H as [[= <-]|(H & _)]; [right; auto|discriminate].
  - rewrite lookup_insert_ne in H by exact Ne. exact H.
Qed.

(** A line whose name is defined changes nothing. *)
Lemma load_env_line_defined (environ : gmap string string) line k v :
  env_line_request line = Some (k, v) -> is_Some (environ !! k) ->
  load_env_line environ line = environ.
Proof.
  intros R D. rewrite load_env_line_request, R.
  now rewrite (bool_decide_eq_true_2 _ D).
Qed.

Lemma load_env_line_defines (environ : gmap string string) line k v :
  env_line_request line = Some (k, v) ->
  is_Some (load_env_line environ line !! k).
Proof.
  intros R. rewrite load_env_line_request, R.
  destruct (bool_decide (is_Some (environ !! k))) eqn:D.
  - now apply bool_decide_eq_true in D.
  - rewrite lookup_insert_eq. eauto.
Qed.

Lemma load_env_lines_defined ls (environ : gmap string string) k :
  is_Some (environ !! k) -> is_Some (fold_left load_env_line ls environ !! k).
Proof.
  intros [v H]. exists v. now apply load_env_lines_keep.
Qed.

(** After the file has been read, none of its lines changes anything. *)
Lemma load_env_lines_settled ls : forall (environ : gmap string string) line,
  In line ls ->
  load_env_line (fold_left load_env_line ls environ) line
  = fold_left load_env_line ls environ.
Proof.
  induction ls as [|l ls IH]; intros environ line H; [destruct H|].
  cbn [fold_left]. destruct H as [->|H]; [|now apply IH].
  destruct (env_line_request line) as [[k v]|] eqn:R.
  - eapply load_env_line_defined; [exact R|].
    apply load_env_lines_defined. eapply load_env_line_defines, R.
  - now rewrite load_env_line_request, R.
Qed.

Lemma load_env_lines_noop ls (environ : gmap string string) :
  (forall line, In line ls -> load_env_line environ line = environ) ->
  fold_left load_env_line ls environ = environ.
Proof.
  induction ls as [|l ls IH]; intros H; [reflexivity|].
  cbn [fold_left]. rewrite (H l) by now left.
  apply IH. intros line Hl. apply H. now right.
Qed.

End LoaderFold.

(** X1. Whatever the file says, a name that the loader leaves in the
    environment either had that value before, or was undefined before and
    is now defined with a non-empty value under a non-empty name without
    surrounding whitespace: the loader never stores an empty value. *)
Theorem load_env_file_only_adds
    (f : option string) (environ : gmap string string) (k v : string) :
  load_env_file f environ !! k = Some v ->
  environ !! k = Some v
  \/ (environ !! k = None /\ k <> EmptyString /\ v <> EmptyString /\ PyStr.strip k = k).
Proof.
  destruct f as [text|]; [apply load_env_lines_only_add|now left].
Qed.

Lemma load_env_file_only_adds_witness :
  (∅ : gmap string string) !! "MODE" = Some "fast"
  \/ ((∅ : gmap string string) !! "MODE" = None /\ "MODE" <> EmptyString
      /\ "fast" <> EmptyString /\ PyStr.strip "MODE" = "MODE").
Proof.
  apply (load_env_file_only_adds (Some demo_env_text) ∅ "MODE" "fast").
  reflexivity.
Defined.

(** X2. Reading the same [.env] a second time changes nothing. *)
Theorem load_env_file_idempotent (f : option string) (environ : gmap string string) :
  load_env_file f (load_env_file f environ) = load_env_file f environ.
Proof.
  destruct f as [text|]; [|reflexivity]. cbn [load_env_file].
  apply load_env_lines_noop. intros line H. now apply load_env_lines_settled.
Qed.

(** X3. Within the file the first definition of a name wins: once a line
    [KEY=VALUE] has defined [KEY], no later line changes it. *)
Theorem first_definition_in_file_wins
    (environ : gmap string string) (k v : string) (later : list string) :
  plain_key k -> plain_value v -> unquote v <> EmptyString ->
  environ !! k = None ->
  fold_left load_env_line (assignment k v :: later) environ !! k = Some (unquote v).
Proof.
  intros Pk Pv Hu Hfree. cbn [fold_left].
  apply load_env_lines_keep.
  rewrite (load_env_line_assignment _ _ _ Pk Pv Hu Hfree).
  apply lookup_insert_eq.
Qed.

Lemma first_definition_in_file_wins_witness :
  load_env_file (Some demo_env_text) ∅ !! "MODE" = Some "fast".
Proof.
  apply (first_definition_in_file_wins ∅ "MODE" "fast" ["MODE=slow"; "EMPTY="]).
  - repeat split; try reflexivity. discriminate.
  - split; [discriminate|reflexivity].
  - discriminate.
  - reflexivity.
Defined.

Section LoaderPadding.

Import PyStr.

Lemma lstrip_blank_app p s : blank p = true -> lstrip (p +:+ s) = lstrip s.
Proof.
  induction p as [|c p IH]; [reflexivity|]. simpl.
  intros H. apply andb_true_iff in H as [-> H]. auto.
Qed.

Lemma rstrip_blank p : blank p = true -> rstrip p = EmptyString.
Proof.
  induction p as [|c p IH]; [reflexivity|]. simpl.
  intros H. apply andb_true_iff in H as [-> H]. now rewrite IH.
Qed.

Lemma rstrip_app_blank s p : blank p = true -> rstrip (s +:+ p) = rstrip s.
Proof.
  intros H. induction s as [|c s IH]; [now apply rstrip_blank|].
  change (String c s +:+ p) with (String c (s +:+ p)). simpl. now rewrite IH.
Qed.

Lemma rstrip_cons_kept c r :
  rstrip r <> EmptyString -> rstrip (String c r) = String c (rstrip r).
Proof. simpl. destruct (rstrip r); [congruence|reflexivity]. Qed.

Lemma rstrip_app_kept a b :
  rstrip b <> EmptyString -> rstrip (a +:+ b) = a +:+ rstrip b.
Proof.
  intros H. induction a as [|c a IH]; [reflexivity|].
  change (String c a +:+ b) with (String c (a +:+ b)).
  rewrite rstrip_cons_kept; rewrite IH; [reflexivity|].
  now apply app_nonempty.
Qed.

Lemma occurs_app c a b : occurs c (a +:+ b) = occurs c a || occurs c b.
Proof.
  induction a as [|c' a IH]; [reflexivity|]. simpl. rewrite IH.
  now rewrite orb_assoc.
Qed.

Lemma blank_no_equals p : blank p = true -> occurs "="%char p = false.
Proof.
  induction p as [|c p IH]; [reflexivity|]. simpl.
  intros H. apply andb_true_iff in H as [X H]. rewrite (IH H).
  destruct (ascii_dec c "="%char) as [->|]; [discriminate X|reflexivity].
Qed.

Lemma split_once_skip c a s :
  occurs c a = false ->
  split_once c (a +:+ s) =
    match split_once c s with
    | Some (x, y) => Some (a +:+ x, y)
    | None => None
    end.
Proof.
  induction a as [|c' a IH].
  - intros _. change (EmptyString +:+ s) with s.
    destruct (split_once c s) as [[x y]|]; reflexivity.
  - change (String c' a +:+ s) with (String c' (a +:+ s)). cbn [occurs split_once].
    destruct (ascii_dec c' c); [discriminate|]. cbn [orb].
    intros H. rewrite (IH H).
    destruct (split_once c s) as [[x y]|]; reflexivity.
Qed.

Lemma split_once_none c s : occurs c s = false -> split_once c s = None.
Proof.
  induction s as [|c' s IH]; [reflexivity|]. simpl.
  destruct (ascii_dec c' c); simpl; [discriminate|]. now intros ->%IH.
Qed.

Lemma occurs_lstrip c s : occurs c s = false -> occurs c (lstrip s) = false.
Proof.
  induction s as [|c' s IH]; [reflexivity|]. simpl.
  destruct (isspace c'); [|auto].
  intros H. apply orb_false_iff in H as [_ H]. auto.
Qed.

Lemma occurs_rstrip c s : occurs c s = false -> occurs c (rstrip s) = false.
Proof.
  induction s as [|c' s IH]; [reflexivity|]. simpl.
  intros H. apply orb_false_iff in H as [H1 H2]. specialize (IH H2).
  destruct (rstrip s) as [|c'' r].
  - destruct (isspace c'); [reflexivity|]. simpl. now rewrite H1.
  - change (occurs c (String c' (String c'' r)))
      with ((if ascii_dec c' c then true else false) || occurs c (String c'' r)).
    now rewrite H1, IH.
Qed.

Lemma blank_nil_r p : blank p = true -> blank (p +:+ EmptyString) = true.
Proof.
  induction p as [|c p IH]; [reflexivity|]. simpl.
  intros H. apply andb_true_iff in H as [-> H]. auto.
Qed.

(** What a padded assignment asks for. *)
Lemma env_line_request_padded p1 k p2 p3 v p4 :
  blank p1 = true -> blank p2 = true -> blank p3 = true -> blank p4 = true ->
  plain_key k -> plain_value v ->
  env_line_request (padded_assignment p1 k p2 p3 v p4)
  = if truthy (unquote v) then Some (k, unquote v) else None.
Proof.
  intros B1 B2 B3 B4 (Hk & Sk & Ok & Ck) (Hv & Sv).
  destruct (strip_fixed _ Sk) as [Lk Rk]. destruct (strip_fixed _ Sv) as [Lv Rv].
  assert (Rv' : rstrip (v +:+ p4) = v) by now rewrite rstrip_app_blank.
  assert (R3 : rstrip (p3 +:+ v +:+ p4) = p3 +:+ v).
  { rewrite rstrip_app_kept; rewrite Rv'; auto. }
  assert (S : strip (padded_assignment p1 k p2 p3 v p4)
              = k +:+ p2 +:+ String "="%char (p3 +:+ v)).
  { unfold strip, padded_assignment. rewrite (lstrip_blank_app _ _ B1).
    destruct k as [|c k]; [congruence|].
    change (String c k +:+ p2 +:+ String "="%char (p3 +:+ v +:+ p4))
      with (String c (k +:+ p2 +:+ String "="%char (p3 +:+ v +:+ p4))).
    rewrite (lstrip_head _ _ (lstrip_fixed_head _ _ Lk)).
    change (String c (k +:+ p2 +:+ String "="%char (p3 +:+ v +:+ p4)))
      with (String c k +:+ p2 +:+ String "="%char (p3 +:+ v +:+ p4)).
    assert (N : rstrip (String "="%char (p3 +:+ v +:+ p4))
                = String "="%char (p3 +:+ v)).
    { rewrite rstrip_cons_kept; rewrite R3; [reflexivity|].
      apply app_nonempty, Hv. }
    rewrite rstrip_app_kept; rewrite rstrip_app_kept; rewrite N;
      try reflexivity; try discriminate.
    apply app_nonempty. discriminate. }
  unfold env_line_request. rewrite S.
  assert (T : truthy (k +:+ p2 +:+ String "="%char (p3 +:+ v)) = true).
  { apply truthy_true, app_nonempty, app_nonempty. discriminate. }
  assert (C : startswith (k +:+ p2 +:+ String "="%char (p3 +:+ v)) "#"%char = false).
  { destruct k; [congruence|exact Ck]. }
  rewrite T, C. cbn [negb orb].
  rewrite (split_once_skip _ _ _ Ok), (split_once_skip _ _ _ (blank_no_equals _ B2)).
  cbn [split_once]. destruct (ascii_dec "="%char "="%char) as [_|N]; [|congruence].
  assert (K : strip (k +:+ p2 +:+ EmptyString) = k).
  { unfold strip. destruct k as [|c k]; [congruence|].
    change (String c k +:+ p2 +:+ EmptyString)
      with (String c (k +:+ p2 +:+ EmptyString)).
    rewrite (lstrip_head _ _ (lstrip_fixed_head _ _ Lk)).
    change (String c (k +:+ p2 +:+ EmptyString))
      with (String c k +:+ p2 +:+ EmptyString).
    rewrite rstrip_app_blank; [exact Rk|now apply blank_nil_r]. }
  assert (V : strip (p3 +:+ v) = v).
  { unfold strip. rewrite (lstrip_blank_app _ _ B3), Lv. exact Rv. }
  rewrite K, V, (truthy_true _ Hk). reflexivity.
Qed.

End LoaderPadding.

(** X4. Whitespace before the name, around the [=] and after the value
    does not matter: the padded line does to the environment what the
    bare line [KEY=VALUE] does. *)
Theorem padding_is_ignored
    (environ : gmap string string) (p1 k p2 p3 v p4 : string) :
  blank p1 = true -> blank p2 = true -> blank p3 = true -> blank p4 = true ->
  plain_key k -> plain_value v ->
  load_env_line environ (padded_assignment p1 k p2 p3 v p4)
  = load_env_line environ (assignment k v).
Proof.
  intros B1 B2 B3 B4 Pk Pv.
  rewrite !load_env_line_request.
  rewrite (env_line_request_padded _ _ _ _ _ _ B1 B2 B3 B4 Pk Pv).
  pose proof (env_line_request_padded EmptyString k EmptyString EmptyString v
                EmptyString eq_refl eq_refl eq_refl eq_refl Pk Pv) as E.
  change (padded_assignment EmptyString k EmptyString EmptyString v EmptyString)
    with (assignment k (v +:+ EmptyString)) in E.
  replace (v +:+ EmptyString) with v in E.
  - now rewrite E.
  - clear. induction v as [|c v IH]; [reflexivity|].
    change (String c v +:+ EmptyString) with (String c (v +:+ EmptyString)).
    now f_equal.
Qed.

Lemma padding_is_ignored_witness :
  load_env_line ∅ "   MODE =  fast  " = load_env_line ∅ "MODE=fast".
Proof.
  change (load_env_line ∅ (padded_assignment "   " "MODE" " " "  " "fast" "  ")
          = load_env_line ∅ (assignment "MODE" "fast")).
  apply (padding_is_ignored ∅ "   " "MODE" " " "  " "fast" "  ");
    try reflexivity.
  - repeat split; try reflexivity. discriminate.
  - split; [discriminate|reflexivity].
Defined.

(** X5. A line without [=] changes nothing. *)
Theorem line_without_equals_is_ignored (environ : gmap string string) (line : string) :
  occurs "="%char line = false -> load_env_line environ line = environ.
Proof.
  intros H. rewrite load_env_line_request. unfold env_line_request.
  destruct (negb _ || _); [reflexivity|].
  rewrite split_once_none; [reflexivity|].
  unfold PyStr.strip. now apply occurs_rstrip, occurs_lstrip.
Qed.

Lemma line_without_equals_is_ignored_witness :
  load_env_line {["A" := "1"]} "export PATH" = {["A" := "1"]}.
Proof.
  apply (line_without_equals_is_ignored {["A" := "1"]} "export PATH"). reflexivity.
Defined.

(** ** More about the invoker *)

Section InvokerMore.

(** An interrupt that throws, striking before the awaited thing is done. *)
Lemma await_strike {A} d (r : outcome A) i s a sets e :
  hit i (bool_decide (is_Some (_task s))) = Some (a, sets, Some e) ->
  Z.of_N a < d ->
  await (Some d) r i s
  = (Raise e, advance (Z.of_N a) (if sets : bool then set_stop true s else s)).
Proof.
  intros H L. unfold await, strikes_before. rewrite H.
  destruct (Z.of_N a <? d) eqn:E; [reflexivity|apply Z.ltb_ge in E; lia].
Qed.

Lemma await_undisturbed {A} d (r : outcome A) s :
  await (Some d) r Undisturbed s = (r, advance d s).
Proof. reflexivity. Qed.

(** An exception thrown into the wait of [_run_redemption]. *)
Lemma run_redemption_thrown inv s a e :
  script_present inv = true -> disturbance inv = Thrown a e ->
  Z.of_N a < snd (awaited (launching inv)) ->
  _run_redemption inv s
  = digest (Raise e, advance (Z.of_N a) (spawned (redemption_args s) s)).
Proof.
  intros P D L. rewrite (run_redemption_present _ _ P), D.
  now rewrite (await_strike _ _ (Thrown a e) _ a false e eq_refl L).
Qed.

(** [stop()] called during the wait of [_run_redemption] of a task. *)
Lemma run_redemption_stop_called inv s a :
  script_present inv = true -> disturbance inv = StopCalled a ->
  is_Some (_task s) ->
  Z.of_N a < snd (awaited (launching inv)) ->
  _run_redemption inv s
  = (Raise CancelledError,
     advance (Z.of_N a) (set_stop true (spawned (redemption_args s) s))).
Proof.
  intros P D T L. rewrite (run_redemption_present _ _ P), D.
  rewrite (await_strike _ _ (StopCalled a) _ a true CancelledError);
    [reflexivity| |exact L].
  cbn [hit _task spawned add_event]. now rewrite (bool_decide_eq_true_2 _ T).
Qed.

Lemma awaited_completed c reap d :
  child_seconds c = Some d -> Z.of_N d <= 115 ->
  awaited (Launched c reap)
  = (Ret (mkProcResult (child_stdout c +:+ child_stderr c) (child_returncode c)),
     Z.of_N d).
Proof.
  intros C L. unfold awaited, thread_answer. rewrite C.
  replace (Z.of_N d <=? 115) with true by lia.
  replace (Z.of_N d <? 120) with true by lia. reflexivity.
Qed.

End InvokerMore.

(** X10. With a non-empty password the child gets [os.environ] with
    [REDEEM_PASSWORD] set to that password (replacing whatever the name
    held) and every other name as it is, while [os.environ] of the running
    process stays as it was. *)
Theorem password_reaches_the_child_only
    (args : list string) (l : launch) (s : state) (p : string) :
  password s = Some p -> p <> EmptyString ->
  (exists env,
      In (Spawn (now s) args env 115 (win32 s))
         (trace (snd (_run_subprocess_sync args l s)))
      /\ env !! REDEEM_PASSWORD = Some p
      /\ forall k, k <> REDEEM_PASSWORD -> env !! k = environ s !! k)
  /\ environ (snd (_run_subprocess_sync args l s)) = environ s.
Proof.
  intros H N. rewrite run_subprocess_sync_answer.
  assert (E : child_env (environ s) (password s) = <[REDEEM_PASSWORD := p]> (environ s)).
  { rewrite H. unfold child_env. now rewrite (truthy_true _ N). }
  split.
  - exists (<[REDEEM_PASSWORD := p]> (environ s)). split; [|split].
    + assert (I : In (Spawn (now s) args (<[REDEEM_PASSWORD := p]> (environ s)) 115 (win32 s))
                     (trace (spawned args s))).
      { unfold spawned. rewrite E. simpl. apply in_or_app. right. now left. }
      destruct (thread_answer l) as [[r d]|]; exact I.
    + apply lookup_insert_eq.
    + intros k Hk. now apply lookup_insert_ne.
  - destruct (thread_answer l) as [[r d]|]; reflexivity.
Qed.

Lemma password_reaches_the_child_only_witness :
  environ (snd (_run_subprocess_sync ["npx"] (launching demo_ok) demo_state))
  = environ demo_state.
Proof.
  apply (password_reaches_the_child_only ["npx"] (launching demo_ok) demo_state "secret");
    [reflexivity|discriminate].
Defined.

(** X11. When the script is there and the child exits by itself within
    115 seconds, undisturbed, [_run_redemption] reports success exactly
    when the exit status is 0, hands the exit status on, prints standard
    output followed by standard error without surrounding whitespace (or
    nothing when that is blank), and takes as long as the child ran. *)
Theorem completed_child_result
    (inv : invocation) (s : state) (c : child) (reap : option N) (d : N) :
  script_present inv = true ->
  launching inv = Launched c reap ->
  child_seconds c = Some d -> Z.of_N d <= 115 ->
  disturbance inv = Undisturbed ->
  _run_redemption inv s
  = (Ret (mkRunResult (child_returncode c =? 0) (Some (child_returncode c)) None),
     print_nonblank (child_stdout c +:+ child_stderr c)
       (advance (Z.of_N d) (spawned (redemption_args s) s))).
Proof.
  intros P L C D U. rewrite (run_redemption_present _ _ P), L, U.
  rewrite (awaited_completed _ _ _ C D). reflexivity.
Qed.

Lemma completed_child_result_witness :
  _run_redemption demo_failing demo_state
  = (Ret (mkRunResult false (Some 3) None),
     add_event (Print "checking...error: no funds")
       (advance 10 (spawned (redemption_args demo_state) demo_state))).
Proof.
  apply (completed_child_result demo_failing demo_state demo_failing_child (Some 0%N) 10);
    try reflexivity.
  lia.
Defined.



(** ** More about [main] *)

Section Preflight.

Variable w : surroundings.
Variable s : state.

Lemma interval_ok_accepted :
  interval_ok w ->
  match arg_interval w with
  | Some n => n <? 1
  | None => false
  end = false.
Proof.
  unfold interval_ok. intros Hi. destruct (arg_interval w) as [n|]; [|reflexivity].
  specialize (Hi n eq_refl). lia.
Qed.

Lemma configure_invalid_interval n :
  arg_interval w = Some n -> n < 1 ->
  configure w s
  = (Raise (SystemExit 1),
     add_event (Print "[ERROR] Interval must be at least 1 minute") (merged_state w s)).
Proof.
  intros A L. unfold configure. rewrite bind_modify, A.
  replace (n <? 1) with true by lia. reflexivity.
Qed.

Lemma configure_no_key_file :
  interval_ok w -> key_file_exists w = false ->
  configure w s
  = (Raise (SystemExit 1),
     add_event (Print (LF +:+ "This will securely store your wallet credentials."))
       (add_event (Print "  npx tsx src/redeem.ts --setup")
          (add_event (Print (LF +:+ "Please run key setup first:"))
             (add_event (Print "[ERROR] Encrypted keys not configured.")
                (merged_state w s))))).
Proof.
  intros Hi K. pose proof (interval_ok_accepted Hi) as I.
  unfold configure. rewrite bind_modify, K.
  destruct (arg_interval w) as [n|]; [rewrite I|]; reflexivity.
Qed.

Lemma configure_node_unusable :
  interval_ok w -> key_file_exists w = true -> node_unusable (node_version w) ->
  configure w s
  = (Raise (SystemExit 1),
     add_event (Print "Please install Node.js from https://nodejs.org/")
       (add_event (Print "[ERROR] Node.js is not installed or not in PATH")
          (preflight_state w s))).
Proof.
  intros Hi K N. pose proof (interval_ok_accepted Hi) as I.
  assert (C : check_node (node_version w) (merged_state w s)
              = (Raise (SystemExit 1),
                 add_event (Print "Please install Node.js from https://nodejs.org/")
                   (add_event (Print "[ERROR] Node.js is not installed or not in PATH")
                      (preflight_state w s)))).
  { unfold check_node, try_except. rewrite bind_get, bind_get, bind_get, bind_modify.
    unfold bind.
    destruct N as [(rc & -> & R)|[->|[(m & ->)|(m & ->)]]]; try reflexivity.
    destruct (rc =? 0) eqn:E; [apply Z.eqb_eq in E; congruence|reflexivity]. }
  unfold configure. rewrite bind_modify, K.
  destruct (arg_interval w) as [n|]; [rewrite I|];
    cbn [bind ret check_key_setup negb]; unfold bind;
    change (set_environ (load_env_file (env_file w) (environ s)) s)
      with (merged_state w s); now rewrite C.
Qed.

Lemma configure_no_script :
  interval_ok w -> key_file_exists w = true -> node_version w = Ret 0 ->
  script_exists w = false ->
  configure w s
  = (Raise (SystemExit 1),
     add_event (Print ("[ERROR] Redemption script not found at "
                       +:+ REDEMPTION_SCRIPT_PATH s))
               (preflight_state w s)).
Proof.
  intros Hi K N S. pose proof (interval_ok_accepted Hi) as I.
  unfold configure, bind, modify, check_key_setup, check_node, try_except, get, ret.
  rewrite K, N, S. cbn [negb].
  destruct (arg_interval w) as [n|]; [rewrite I|]; reflexivity.
Qed.

(** [main] ends where [configure] ends when that raises. *)
Lemma main_configure_raises e s' :
  configure w s = (Raise e, s') -> main w s = (Raise e, s').
Proof. intros H. unfold main. now apply bind_raise. Qed.

End Preflight.

(** X6. An interval below 1 ends [main] with exit status 1 right after
    [.env] has been merged: the only output is the error line, and neither
    the key file nor Node.js is looked at, no prompt is shown and nothing
    is invoked. *)
Theorem invalid_interval_exits_first (w : surroundings) (s : state) (n : Z) :
  arg_interval w = Some n -> n < 1 ->
  main w s
  = (Raise (SystemExit 1),
     add_event (Print "[ERROR] Interval must be at least 1 minute") (merged_state w s))
  /\ exit_status (fst (main w s)) = Some 1.
Proof.
  intros A L.
  rewrite (main_configure_raises _ _ _ _ (configure_invalid_interval w s n A L)).
  split; reflexivity.
Qed.

Lemma invalid_interval_exits_first_witness :
  exit_status
    (fst (main (mkSurroundings None (Some 0) false false false Pending false Pending
                               demo_ok [])
               demo_boot)) = Some 1.
Proof.
  apply (invalid_interval_exits_first
           (mkSurroundings None (Some 0) false false false Pending false Pending demo_ok [])
           demo_boot 0); [reflexivity|lia].
Defined.

(** X7. With an acceptable interval and no [.encrypted_keys] file,
    [main] prints the four lines of [check_key_setup] and ends with exit
    status 1: Node.js is not probed, no prompt is shown, nothing is
    invoked. *)
Theorem missing_key_file_exits (w : surroundings) (s : state) :
  interval_ok w -> key_file_exists w = false ->
  exit_status (fst (main w s)) = Some 1
  /\ trace (snd (main w s))
     = (trace s ++ [Print "[ERROR] Encrypted keys not configured.";
                    Print (LF +:+ "Please run key setup first:");
                    Print "  npx tsx src/redeem.ts --setup";
                    Print (LF +:+ "This will securely store your wallet credentials.")])%list.
Proof.
  intros Hi K.
  rewrite (main_configure_raises _ _ _ _ (configure_no_key_file w s Hi K)).
  split; [reflexivity|]. simpl. now rewrite <- !app_assoc.
Qed.

Lemma missing_key_file_exits_witness :
  exit_status
    (fst (main (mkSurroundings None (Some 15) false false false Pending false Pending
                               demo_ok [])
               demo_boot)) = Some 1.
Proof.
  apply (missing_key_file_exits
           (mkSurroundings None (Some 15) false false false Pending false Pending
                           demo_ok [])
           demo_boot); [|reflexivity].
  intros n [= <-]. lia.
Defined.

(** X8. When the probe [node --version] returns a non-zero status, times
    out, or fails with [FileNotFoundError] or [OSError], [main] reports
    that Node.js is missing and ends with exit status 1: after the probe
    no prompt is shown and the script is never invoked. *)
Theorem unusable_node_exits (w : surroundings) (s : state) :
  interval_ok w -> key_file_exists w = true -> node_unusable (node_version w) ->
  exit_status (fst (main w s)) = Some 1
  /\ trace (snd (main w s))
     = (trace s ++ [Spawn (now s) ["node"; "--version"] (merged_environ w s) 5 (win32 s);
                    Print "[ERROR] Node.js is not installed or not in PATH";
                    Print "Please install Node.js from https://nodejs.org/"])%list.
Proof.
  intros Hi K N.
  rewrite (main_configure_raises _ _ _ _ (configure_node_unusable w s Hi K N)).
  split; [reflexivity|]. simpl. now rewrite <- !app_assoc.
Qed.

Lemma unusable_node_exits_witness :
  exit_status
    (fst (main (mkSurroundings None None false false true (Ret 127) true Pending
                               demo_ok [])
               demo_boot)) = Some 1.
Proof.
  apply (unusable_node_exits
           (mkSurroundings None None false false true (Ret 127) true Pending demo_ok [])
           demo_boot); [discriminate|reflexivity|].
  left. exists 127. split; [reflexivity|lia].
Defined.

(** X9. When the earlier checks pass and [src/redeem.ts] is missing,
    [main] names the missing path and ends with exit status 1 without
    showing the password prompt. *)
Theorem missing_script_exits (w : surroundings) (s : state) :
  interval_ok w -> key_file_exists w = true -> node_version w = Ret 0 ->
  script_exists w = false ->
  main w s
  = (Raise (SystemExit 1),
     add_event (Print ("[ERROR] Redemption script not found at "
                       +:+ SCRIPT_DIR s +:+ "/src/redeem.ts"))
               (preflight_state w s))
  /\ exit_status (fst (main w s)) = Some 1
  /\ prompts (trace (snd (main w s))) = prompts (trace s).
Proof.
  intros Hi K N S.
  rewrite (main_configure_raises _ _ _ _ (configure_no_script w s Hi K N S)).
  split; [reflexivity|]. split; [reflexivity|].
  unfold prompts. simpl. rewrite !List.filter_app. simpl. now rewrite !app_nil_r.
Qed.

Lemma missing_script_exits_witness :
  exit_status
    (fst (main (mkSurroundings None None false false true (Ret 0) false Pending
                               demo_ok [])
               demo_boot)) = Some 1.
Proof.
  apply (missing_script_exits
           (mkSurroundings None None false false true (Ret 0) false Pending demo_ok [])
           demo_boot); try reflexivity.
  discriminate.
Defined.

Section MainRuns.

Variable w : surroundings.
Variable s : state.
Hypothesis preflight : preflight_ok w.
Hypothesis credential : truthy_opt (merged_environ w s !! REDEEM_PASSWORD) = true.

(** With the credential in the environment [main] is [run_cli] on the
    configured object. *)
Lemma main_configured : main w s = run_cli w (configured w s).
Proof.
  unfold main, bind. now rewrite (configure_from_environ w s preflight credential).
Qed.

End MainRuns.

(** X13. A non-empty [REDEEM_PASSWORD] in the process environment is the
    credential, whatever [.env] holds for that name and whatever would be
    typed: [main] builds the object with it and the password prompt is
    never shown. *)
Theorem credential_from_environment (w : surroundings) (s : state) (p : string) :
  preflight_ok w ->
  environ s !! REDEEM_PASSWORD = Some p -> p <> EmptyString ->
  configure w s
  = (Ret tt, RedemptionCLI (arg_interval w) (arg_check w) (Some p) (preflight_state w s))
  /\ prompts (trace (snd (configure w s))) = prompts (trace s).
Proof.
  intros P H N.
  assert (M : merged_environ w s !! REDEEM_PASSWORD = Some p)
    by (unfold merged_environ; now apply load_env_file_keeps).
  rewrite (configure_from_environ w s P); [|rewrite M; now apply truthy_true].
  rewrite M. split; [reflexivity|].
  unfold prompts. simpl. rewrite List.filter_app. simpl. now rewrite app_nil_r.
Qed.

Lemma credential_from_environment_witness :
  password (snd (configure (demo_surroundings (Some scenario_env_file) Pending)
                           demo_env_boot)) = Some "secret".
Proof.
  destruct (credential_from_environment
              (demo_surroundings (Some scenario_env_file) Pending) demo_env_boot "secret")
    as [E _].
  - repeat split; try reflexivity. discriminate.
  - reflexivity.
  - discriminate.
  - now rewrite E.
Defined.

(** X14. In one-shot mode the exit status does not tell whether the
    redemption worked: with the preflight checks passed, the credential in
    the environment and an undisturbed invocation, [main] is that one
    invocation and returns normally (exit status 0) whatever result the
    invocation gave. *)
Theorem one_shot_exit_status_is_zero (w : surroundings) (s : state) :
  preflight_ok w ->
  truthy_opt (merged_environ w s !! REDEEM_PASSWORD) = true ->
  arg_interval w = None ->
  quiet_run (first_run w) ->
  (exists r, _run_redemption (first_run w) (configured w s) = (Ret r, snd (main w s)))
  /\ fst (main w s) = Ret tt
  /\ exit_status (fst (main w s)) = Some 0.
Proof.
  intros P T A Q. rewrite (main_configured w s P T).
  unfold run_cli, try_except.
  rewrite start_one_shot by exact A.
  destruct (only_errors_returns _ _ (quiet_run_only_errors _ (configured w s) Q))
    as (r & s' & E).
  rewrite E. cbn [fst snd exit_status]. eauto.
Qed.

Lemma one_shot_exit_status_is_zero_witness :
  exit_status (fst (main (demo_one_shot demo_missing_npx) demo_env_boot)) = Some 0.
Proof.
  apply (one_shot_exit_status_is_zero (demo_one_shot demo_missing_npx) demo_env_boot).
  - repeat split; try reflexivity. discriminate.
  - reflexivity.
  - reflexivity.
  - split; [reflexivity|]. intros e [= <-]. reflexivity.
Defined.

(** X15. A [KeyboardInterrupt] that reaches the single invocation of a
    one-shot run is not turned into a failed result: it leaves
    [_run_redemption] and [start], [main] prints ["Stopping..."] and calls
    [stop], which (no task having been created) only sets the stop event
    and prints its notice; the process ends with exit status 0. *)
Theorem keyboard_interrupt_in_one_shot (w : surroundings) (s : state) (a : N) :
  preflight_ok w ->
  truthy_opt (merged_environ w s !! REDEEM_PASSWORD) = true ->
  arg_interval w = None ->
  script_present (first_run w) = true ->
  disturbance (first_run w) = Thrown a KeyboardInterrupt ->
  Z.of_N a < snd (awaited (launching (first_run w))) ->
  main w s
  = (Ret tt,
     add_event (Print stopped_notice)
       (set_stop true
          (add_event (Print (LF +:+ "Stopping..."))
             (advance (Z.of_N a)
                (spawned (redemption_args (configured w s)) (configured w s))))))
  /\ exit_status (fst (main w s)) = Some 0.
Proof.
  intros P T A S D L. rewrite (main_configured w s P T).
  unfold run_cli, try_except.
  rewrite start_one_shot by exact A.
  rewrite (run_redemption_thrown _ _ _ _ S D L). cbn [digest is_Exception].
  split; reflexivity.
Qed.

Lemma keyboard_interrupt_in_one_shot_witness :
  exit_status (fst (main (demo_one_shot demo_interrupted) demo_env_boot)) = Some 0.
Proof.
  apply (keyboard_interrupt_in_one_shot (demo_one_shot demo_interrupted) demo_env_boot 2);
    try reflexivity.
  repeat split; try reflexivity. discriminate.
Defined.

(** ** More about the scheduler *)

Section LoopMore.

Lemma sleep_thrown seconds a e s :
  Z.of_N a < seconds ->
  sleep seconds (Thrown a e) s
  = (Raise e, advance (Z.of_N a) (add_event (Sleep (now s) seconds) s)).
Proof.
  intros A. unfold sleep. rewrite bind_get, bind_modify.
  rewrite (await_strike _ _ (Thrown a e) _ a false e eq_refl); [reflexivity|lia].
Qed.

Lemma loop_body_thrown minutes c a e s :
  wait c = Thrown a e -> Z.of_N a < minutes * 60 ->
  loop_body minutes (minutes * 60) c s
  = (Raise e, advance (Z.of_N a) (announced minutes s)).
Proof.
  intros W A. unfold loop_body, print.
  rewrite bind_get, bind_modify, bind_modify, bind_modify, W.
  apply bind_raise. now apply sleep_thrown.
Qed.

Lemma loop_body_stop_set minutes c a s :
  wait c = StopSet a -> Z.of_N a < minutes * 60 ->
  loop_body minutes (minutes * 60) c s
  = (Ret tt, advance (minutes * 60) (set_stop true (announced minutes s))).
Proof.
  intros W A. unfold loop_body, print.
  rewrite bind_get, bind_modify, bind_modify, bind_modify, W.
  unfold sleep, bind at 1. rewrite bind_get, bind_modify.
  unfold await. cbn [hit]. unfold strikes_before.
  replace (Z.max 0 (minutes * 60)) with (minutes * 60) by lia.
  replace (Z.of_N a <? minutes * 60) with true by lia.
  reflexivity.
Qed.

Lemma loop_body_run_stop_called minutes c a s :
  1 <= minutes -> _stop s = false -> is_Some (_task s) ->
  wait c = Undisturbed ->
  script_present (run c) = true -> disturbance (run c) = StopCalled a ->
  Z.of_N a < snd (awaited (launching (run c))) ->
  loop_body minutes (minutes * 60) c s
  = (Raise CancelledError,
     advance (Z.of_N a)
       (set_stop true (spawned (redemption_args s) (scheduled minutes s)))).
Proof.
  intros M S T W P D L. unfold loop_body.
  rewrite W.
  cbn [bind get modify print sleep await finish when ret hit
       _stop set_stop set_next_run_at add_event advance set_now now].
  rewrite S. cbn [negb bind get modify ret now set_next_run_at add_event advance set_now].
  replace (Z.max 0 (minutes * 60)) with (minutes * 60) by lia.
  unfold when. cbn [bind get modify ret]. unfold bind.
  match goal with
  | |- context [_run_redemption (run c) ?st] => change st with (scheduled minutes s)
  end.
  rewrite (run_redemption_stop_called _ (scheduled minutes s) a P D); auto.
Qed.

(** [start] in periodic mode, once the first invocation and the quiet
    cycles [pre] are over: the task runs the rest of the loop. *)
Lemma start_quiet_prefix minutes first pre more s :
  interval_minutes s = Some minutes -> 1 <= minutes ->
  quiet_run first -> Forall quiet pre ->
  start first (pre ++ more) s
  = match loop minutes (minutes * 60) more (after_cycles minutes first pre s) with
    | (Pending, s') => (Pending, s')
    | (Raise CancelledError, s') =>
        (Ret tt, set_task (Some (TaskDone (Raise CancelledError))) s')
    | (r, s') => (r, set_task (Some (TaskDone r)) s')
    end
  /\ _stop (after_cycles minutes first pre s) = false
  /\ _task (after_cycles minutes first pre s) = Some TaskRunning.
Proof.
  intros I M Q1 Q. split; [|split].
  - rewrite (start_periodic _ _ _ _ I). unfold run_as_task.
    rewrite (run_loop_quiet_prefix minutes first pre more s I M Q1 Q).
    fold (after_cycles minutes first pre s).
    destruct (loop _ _ more _) as [[u|e|] s']; [reflexivity| |reflexivity].
    destruct e; reflexivity.
  - unfold after_cycles. rewrite (fold_cycle_step_stop _ _ _ Q).
    now rewrite (quiet_run_keeps_stop _ _ Q1).
  - unfold after_cycles.
    destruct (fold_cycle_step_frame minutes pre
                (snd (_run_redemption first (started s)))) as (_ & T1 & _).
    rewrite T1.
    destruct (_run_redemption first (started s)) as [r s1] eqn:E. cbn [snd].
    apply run_redemption_frame in E. destruct E as (_ & T2 & _).
    now rewrite T2.
Qed.

End LoopMore.

(** X16. The handler of the loop.  An error (an [Exception]) thrown into
    the interval wait does not end the loop: it is reported on one line,
    the loop sleeps 60 seconds, and goes on with the next pass; the
    invocation of the interrupted cycle is not made. *)
Theorem loop_fault_is_reported_and_survived
    (minutes : Z) (c : cycle) (rest : list cycle) (a : N) (e : exn) (s : state) :
  _stop s = false ->
  wait c = Thrown a e -> Z.of_N a < minutes * 60 ->
  is_Exception e = true ->
  cooldown c = Undisturbed ->
  loop minutes (minutes * 60) (c :: rest) s
  = loop minutes (minutes * 60) rest (advance 60 (cooling minutes a e s))
  /\ invocations (trace (advance 60 (cooling minutes a e s))) = invocations (trace s)
  /\ now (advance 60 (cooling minutes a e s)) = now s + Z.of_N a + 60.
Proof.
  intros S W A X C. split; [|split; [|reflexivity]].
  - cbn [loop]. rewrite S, (loop_body_thrown _ _ _ _ _ W A).
    destruct e; try discriminate X; rewrite C; reflexivity.
  - unfold invocations, cooling, fault_reported, announced. simpl.
    rewrite !List.filter_app. simpl. now rewrite !app_nil_r.
Qed.

Lemma loop_fault_is_reported_and_survived_witness :
  loop 15 (15 * 60) [demo_fault_cycle] demo_in_loop
  = (Pending, advance 60 (cooling 15 5 (OSError "clock failure") demo_in_loop)).
Proof.
  assert (A : Z.of_N 5 < 15 * 60) by lia.
  destruct (loop_fault_is_reported_and_survived 15 demo_fault_cycle [] 5
              (OSError "clock failure") demo_in_loop
              eq_refl eq_refl A eq_refl eq_refl) as [E _].
  exact E.
Defined.

(** X17. When the stop event gets set during the interval wait without
    the task being cancelled, the sleep still runs to its end; then the
    invocation is skipped and the loop returns. *)
Theorem stop_event_alone_waits_out_the_interval
    (minutes : Z) (c : cycle) (rest : list cycle) (a : N) (s : state) :
  _stop s = false ->
  wait c = StopSet a -> Z.of_N a < minutes * 60 ->
  loop minutes (minutes * 60) (c :: rest) s
  = (Ret tt, advance (minutes * 60) (set_stop true (announced minutes s)))
  /\ invocations (trace (advance (minutes * 60) (set_stop true (announced minutes s))))
     = invocations (trace s).
Proof.
  intros S W A. split.
  - cbn [loop]. rewrite S, (loop_body_stop_set _ _ _ _ W A).
    now apply loop_stopped.
  - unfold invocations, announced. simpl.
    rewrite !List.filter_app. simpl. now rewrite !app_nil_r.
Qed.

Lemma stop_event_alone_waits_out_the_interval_witness :
  now (snd (loop 15 (15 * 60) [demo_flag_cycle; demo_flag_cycle] demo_in_loop))
  = now demo_in_loop + 900.
Proof.
  assert (A : Z.of_N 30 < 15 * 60) by lia.
  destruct (stop_event_alone_waits_out_the_interval 15 demo_flag_cycle
              [demo_flag_cycle] 30 demo_in_loop eq_refl eq_refl A) as [E _].
  now rewrite E.
Defined.

(** X18. [stop()] called while an invocation of the loop is under way:
    the cancellation is not turned into a failed result, it leaves
    [_run_redemption], and the loop catches it and returns at that
    moment. *)
Theorem stop_during_invocation_ends_the_loop
    (minutes : Z) (c : cycle) (rest : list cycle) (a : N) (s : state) :
  1 <= minutes -> _stop s = false -> is_Some (_task s) ->
  wait c = Undisturbed ->
  script_present (run c) = true -> disturbance (run c) = StopCalled a ->
  Z.of_N a < snd (awaited (launching (run c))) ->
  loop minutes (minutes * 60) (c :: rest) s
  = (Ret tt,
     advance (Z.of_N a)
       (set_stop true (spawned (redemption_args s) (scheduled minutes s)))).
Proof.
  intros M S T W P D L. cbn [loop].
  now rewrite S, (loop_body_run_stop_called _ _ _ _ M S T W P D L).
Qed.

Lemma stop_during_invocation_ends_the_loop_witness :
  fst (loop 15 (15 * 60) [demo_stopped_run_cycle; demo_flag_cycle] demo_in_loop) = Ret tt
  /\ now (snd (loop 15 (15 * 60) [demo_stopped_run_cycle; demo_flag_cycle] demo_in_loop))
     = now demo_in_loop + 900 + 3.
Proof.
  rewrite (stop_during_invocation_ends_the_loop 15 demo_stopped_run_cycle
             [demo_flag_cycle] 3 demo_in_loop); try reflexivity.
  - split; reflexivity.
  - lia.
  - simpl. eauto.
Defined.

(** X19. [stop()] called during the first invocation of a periodic run:
    the cancellation leaves [_run_loop] (line 140 is outside the [try]),
    the task ends cancelled, and [start] returns normally. *)
Theorem stop_during_first_invocation
    (first : invocation) (cycles : list cycle) (minutes : Z) (a : N) (s : state) :
  interval_minutes s = Some minutes ->
  script_present first = true -> disturbance first = StopCalled a ->
  Z.of_N a < snd (awaited (launching first)) ->
  start first cycles s
  = (Ret tt,
     set_task (Some (TaskDone (Raise CancelledError)))
       (advance (Z.of_N a)
          (set_stop true (spawned (redemption_args s) (started s))))).
Proof.
  intros I P D L. rewrite (start_periodic _ _ _ _ I). unfold run_as_task.
  assert (E : _run_loop first cycles (set_task (Some TaskRunning) (set_stop false s))
              = (Raise CancelledError,
                 advance (Z.of_N a)
                   (set_stop true (spawned (redemption_args s) (started s))))).
  { unfold _run_loop. rewrite bind_get, bind_modify. apply bind_raise.
    change (set_last_run_at _ _) with (started s).
    rewrite (run_redemption_stop_called _ (started s) a P D); auto. }
  now rewrite E.
Qed.

Lemma stop_during_first_invocation_witness :
  fst (start demo_stopped_run [] demo_periodic) = Ret tt
  /\ _task (snd (start demo_stopped_run [] demo_periodic))
     = Some (TaskDone (Raise CancelledError)).
Proof.
  rewrite (stop_during_first_invocation demo_stopped_run [] 15 3 demo_periodic);
    try reflexivity.
  split; reflexivity.
Defined.

Section Cooldown.

Lemma loop_fault_cooldown_stop_called minutes c rest a e b s :
  _stop s = false -> is_Some (_task s) ->
  wait c = Thrown a e -> Z.of_N a < minutes * 60 ->
  is_Exception e = true ->
  cooldown c = StopCalled b -> Z.of_N b < 60 ->
  loop minutes (minutes * 60) (c :: rest) s
  = (Raise CancelledError,
     advance (Z.of_N b) (set_stop true (cooling minutes a e s))).
Proof.
  intros S T W A X C B. cbn [loop].
  rewrite S, (loop_body_thrown _ _ _ _ _ W A).
  assert (H : forall st,
             is_Some (_task st) ->
             (print ("[ERROR] Error in redemption loop: " +:+ str_exn e) ;;;
              sleep 60 (cooldown c))%py st
             = (Raise CancelledError,
                advance (Z.of_N b)
                  (set_stop true
                     (add_event (Sleep (now st) 60)
                        (add_event (Print ("[ERROR] Error in redemption loop: "
                                           +:+ str_exn e)) st))))).
  { intros st Tst. unfold print. rewrite bind_modify, C.
    now rewrite sleep_stop_called. }
  destruct e; try discriminate X; rewrite H; try reflexivity; exact T.
Qed.

End Cooldown.

(** X20. [stop()] called during the 60-second cooldown of the handler:
    the cancellation is raised inside the [except] block, so the loop does
    not catch it and [_run_loop] ends with it; the task ends cancelled and
    [start] returns normally. *)
Theorem stop_during_cooldown
    (minutes : Z) (first : invocation) (pre : list cycle) (c : cycle)
    (rest : list cycle) (a b : N) (e : exn) (s : state) :
  interval_minutes s = Some minutes -> 1 <= minutes ->
  quiet_run first -> Forall quiet pre ->
  wait c = Thrown a e -> Z.of_N a < minutes * 60 ->
  is_Exception e = true ->
  cooldown c = StopCalled b -> Z.of_N b < 60 ->
  loop minutes (minutes * 60) (c :: rest) (after_cycles minutes first pre s)
  = (Raise CancelledError,
     advance (Z.of_N b)
       (set_stop true (cooling minutes a e (after_cycles minutes first pre s))))
  /\ start first (pre ++ c :: rest) s
     = (Ret tt,
        set_task (Some (TaskDone (Raise CancelledError)))
          (advance (Z.of_N b)
             (set_stop true (cooling minutes a e (after_cycles minutes first pre s))))).
Proof.
  intros I M Q1 Q W A X C B.
  destruct (start_quiet_prefix minutes first pre (c :: rest) s I M Q1 Q)
    as (E & S & T).
  assert (L : loop minutes (minutes * 60) (c :: rest) (after_cycles minutes first pre s)
              = (Raise CancelledError,
                 advance (Z.of_N b)
                   (set_stop true
                      (cooling minutes a e (after_cycles minutes first pre s))))).
  { apply loop_fault_cooldown_stop_called; auto. }
  split; [exact L|]. now rewrite E, L.
Qed.

Lemma stop_during_cooldown_witness :
  fst (start demo_ok (demo_failing_cycles ++ [demo_fault_stop_cycle]) demo_periodic)
  = Ret tt.
Proof.
  assert (Q1 : quiet_run demo_ok) by (split; [reflexivity|discriminate]).
  assert (Q : Forall quiet demo_failing_cycles).
  { repeat constructor; try discriminate.
    intros e [= <-]. reflexivity. }
  destruct (stop_during_cooldown 15 demo_ok demo_failing_cycles demo_fault_stop_cycle
              [] 5 10 (OSError "clock failure") demo_periodic
              eq_refl ltac:(lia) Q1 Q eq_refl ltac:(lia) eq_refl eq_refl ltac:(lia))
    as [_ E].
  now rewrite E.
Defined.

(** X21. Fixed delay.  In two consecutive quiet cycles the recorded
    times of the runs ([_last_run_at]) lie at least the interval and at
    most the interval plus 120 seconds apart: the interval is counted from
    the end of the previous invocation, which takes 120 seconds at
    most. *)
Theorem consecutive_runs_spacing
    (minutes : Z) (c1 c2 : cycle) (rest : list cycle) (s : state) :
  1 <= minutes -> _stop s = false -> quiet c1 -> quiet c2 ->
  loop minutes (minutes * 60) (c1 :: c2 :: rest) s
  = loop minutes (minutes * 60) rest
      (cycle_step minutes (cycle_step minutes s c1) c2)
  /\ exists t1 t2,
       _last_run_at (cycle_step minutes s c1) = Some t1
       /\ _last_run_at (cycle_step minutes (cycle_step minutes s c1) c2) = Some t2
       /\ t1 + minutes * 60 <= t2 <= t1 + minutes * 60 + 120.
Proof.
  intros M S Q1 Q2. split.
  - apply (loop_quiet_prefix minutes [c1; c2] rest s M S).
    constructor; [exact Q1|constructor; [exact Q2|constructor]].
  - destruct (cycle_step_events minutes s c1) as (_ & L1 & _).
    destruct (cycle_step_events minutes (cycle_step minutes s c1) c2) as (_ & L2 & _).
    destruct (cycle_step_frame minutes s c1) as (_ & _ & _ & _ & B & _).
    exists (now s + minutes * 60), (now (cycle_step minutes s c1) + minutes * 60).
    split; [exact L1|]. split; [exact L2|].
    simpl in B. lia.
Qed.

Lemma consecutive_runs_spacing_witness :
  exists t1 t2,
    _last_run_at (cycle_step 15 demo_in_loop (mkCycle Undisturbed demo_ok Undisturbed))
    = Some t1
    /\ _last_run_at
         (cycle_step 15
            (cycle_step 15 demo_in_loop (mkCycle Undisturbed demo_ok Undisturbed))
            (mkCycle Undisturbed (demo_hang None) Undisturbed)) = Some t2
    /\ t1 + 15 * 60 <= t2 <= t1 + 15 * 60 + 120.
Proof.
  assert (Q1 : quiet (mkCycle Undisturbed demo_ok Undisturbed))
    by (repeat split; discriminate).
  assert (Q2 : quiet (mkCycle Undisturbed (demo_hang None) Undisturbed))
    by (repeat split; discriminate).
  exact (proj2 (consecutive_runs_spacing 15 _ _ [] demo_in_loop
                  ltac:(lia) eq_refl Q1 Q2)).
Defined.

(** X22. [stop] does not disable the object: [start] in periodic mode
    clears the stop event first, so after a [stop] on an object without an
    active run a new [start] runs exactly as it would have without the
    [stop] (whose printed notice apart). *)
Theorem start_after_stop
    (first : invocation) (cycles : list cycle) (minutes : Z) (s : state) :
  idle s -> interval_minutes s = Some minutes ->
  start first cycles (snd (stop s))
  = start first cycles (add_event (Print stopped_notice) s).
Proof.
  intros H I. rewrite (stop_idle s H). cbn [snd].
  rewrite (start_periodic first cycles _ minutes) by exact I.
  rewrite (start_periodic first cycles _ minutes) by exact I.
  reflexivity.
Qed.

Lemma start_after_stop_witness :
  start demo_ok [] (snd (stop demo_periodic))
  = start demo_ok [] (add_event (Print stopped_notice) demo_periodic).
Proof.
  apply (start_after_stop demo_ok [] 15 demo_periodic); [now left|reflexivity].
Defined.
